(** * The adaptive interview session of [app.py]

    A shallow embedding of the Streamlit script [src/app.py]: the session
    state kept in [st.session_state], one execution of the script from top to
    bottom ([script]), and the properties of the interview state machine that
    follow from it.

    Modelling conventions.
    - Python dictionaries with a fixed set of keys are records; a key read
      with [.get(key, default)] is an [option] field.
    - The two model calls, [random.sample] and the question file are the only
      sources of non-determinism; they are gathered in a [World] that every
      execution of the script receives.
    - [st.session_state] is mutated in place, so what was written before an
      uncaught exception, [st.stop()] or [st.rerun()] is kept: every execution
      returns the state it leaves behind together with the way it ended.
    - [total_score / len(results)] is a binary64 division in Python.  It is
      embedded as the exact quotient in [Q]; the script only compares the
      quotient with [0] and [3.0], and for integer scores these comparisons
      give the same answer on the exact and on the rounded quotient as long as
      the number of results stays below 2^52.  In the same way
      [math.ceil(total_questions * 0.75)] is the ceiling of the exact product.
    - Strings are sequences of bytes.  [str.lower] is embedded on the ASCII
      letters, which is all that the test ['start' in prompt.lower()] can
      observe. *)

From Stdlib Require Import ZArith QArith Qround String Ascii DecimalString Lia.
From stdpp Require Import base list strings.

Local Open Scope Z_scope.
Local Open Scope nat_scope.
Local Open Scope string_scope.
Local Open Scope list_scope.

(** ** Strings *)

Definition nl : string := String "010"%char EmptyString.
Definition dquote : string := String "034"%char EmptyString.

(** [str(n)] for a Python [int]. *)
Definition str_int (z : Z) : string := NilZero.string_of_int (Z.to_int z).

Definition lower_ascii (c : ascii) : ascii :=
  let n := nat_of_ascii c in
  if ((65 <=? n)%nat && (n <=? 90)%nat)%bool then ascii_of_nat (n + 32) else c.

(** [s.lower()] *)
Fixpoint lower (s : string) : string :=
  match s with
  | EmptyString => EmptyString
  | String c t => String (lower_ascii c) (lower t)
  end.

(** [needle in hay] *)
Fixpoint contains (needle hay : string) : bool :=
  String.prefix needle hay ||
  match hay with
  | EmptyString => false
  | String _ t => contains needle t
  end.

(** ** Data model *)

(** An entry of [interview_questions.json]: ['question'] is read with
    [q['question']], ['rubric'] and ['hint'] with [q.get(...)]. *)
Record Question := mkQuestion {
  question : string;
  rubric : option string;
  hint : option string
}.

(** The dictionary returned by [evaluate_answer]. *)
Record Evaluation := mkEvaluation {
  score : Z;
  justification : string
}.

(** An element of [st.session_state.results]. *)
Record TurnRecord := mkTurn {
  turn_question : string;
  answer : string;
  evaluation : Evaluation
}.

Inductive Role := assistant | user.

Record Message := mkMessage {
  role : Role;
  content : string
}.

Inductive Stage := welcome | interviewing | interview_finished.

(** [st.session_state]; [report] is [None] while the key ['report'] is absent. *)
Record SessionState := mkSession {
  stage : Stage;
  q_index : nat;
  results : list TurnRecord;
  retry_attempt : bool;
  interview_questions : list Question;
  messages : list Message;
  report : option string
}.

Definition set_stage (x : Stage) (s : SessionState) : SessionState :=
  mkSession x (q_index s) (results s) (retry_attempt s)
            (interview_questions s) (messages s) (report s).

Definition set_report (x : string) (s : SessionState) : SessionState :=
  mkSession (stage s) (q_index s) (results s) (retry_attempt s)
            (interview_questions s) (messages s) (Some x).

(** [st.session_state.messages.append({"role": r, "content": c})] *)
Definition append_message (r : Role) (c : string) (s : SessionState) : SessionState :=
  mkSession (stage s) (q_index s) (results s) (retry_attempt s)
            (interview_questions s) (messages s ++ [mkMessage r c]) (report s).

#[global] Instance Stage_eq_dec : EqDecision Stage.
Proof. solve_decision. Defined.

(** ** The outside world *)

(** What a call that may raise gives back: a value, or an exception [e]
    of which the script only uses [str(e)]. *)
Inductive Reply (A : Type) :=
  | Returns (a : A)
  | Raises (detail : string).
Arguments Returns {A} a.
Arguments Raises {A} detail.

(** - [rng i] is the [i]-th raw draw of the random generator;
    - [eval_model prompt] is [json.loads(eval_model.generate_content(prompt).text)],
      an exception of either call being [Raises]; the parsed value is taken
      to be what the prompt asks for, an object with an integer ['score'] and
      a string ['justification'];
    - [report_model prompt] is [report_model.generate_content(prompt).text]. *)
Record World := mkWorld {
  rng : nat -> nat;
  eval_model : string -> Reply Evaluation;
  report_model : string -> Reply string
}.

(** The calls that leave the process and the error banners, in order. *)
Inductive Event :=
  | EvaluatorCall (prompt : string)
  | ReportCall (prompt : string)
  | StError (msg : string).

(** How an execution of the script ends. *)
Inductive Exit :=
  | ScriptEnd
  | StStop
  | StRerun
  | IndexError.

Record Outcome := mkOutcome {
  state : SessionState;
  trace : list Event;
  exit : Exit
}.

(** ** Prompt templates *)

Definition EVALUATION_PROMPT (question answer rubric : string) : string :=
"
You are an expert Excel Interview Evaluator. Your task is to analyze a candidate's answer to an interview question.
You must provide a numeric score from 1 to 5 and a brief justification for your score based on the provided rubric.
Your entire output must be a single, valid JSON object.

**Rubric:**
- 5: Excellent. The answer is accurate, complete, and demonstrates deep understanding.
- 4: Good. The answer is mostly correct but may have minor inaccuracies.
- 3: Satisfactory. The answer demonstrates a basic understanding but is incomplete or contains notable errors.
- 2: Poor. The answer is largely incorrect and shows a fundamental misunderstanding.
- 1: Very Poor. The answer is completely wrong or irrelevant.

**Interview Question:**
" +:+ question +:+ "

**Candidate's Answer:**
" +:+ answer +:+ "

**Evaluation Rubric for this question:**
" +:+ rubric +:+ nl.

Definition FINAL_REPORT_PROMPT (transcript : string) : string :=
"
You are a helpful and constructive hiring manager, specializing in data roles.
Your task is to generate a final performance summary for a candidate who has just completed an Excel skills interview in Markdown format.

Based on the full transcript, provide a report with these sections:
1.  **Overall Summary:** A brief, 2-3 sentence paragraph summarizing the candidate's performance.
2.  **Strengths:** 2-3 bullet points highlighting what the candidate did well.
3.  **Areas for Improvement:** 2-3 bullet points with constructive feedback.
4.  **Final Recommendation:** A concluding sentence (e.g., "
  +:+ dquote +:+ "Recommend for next round," +:+ dquote +:+ " "
  +:+ dquote +:+ "Shows promise but needs more practice," +:+ dquote +:+ " "
  +:+ dquote +:+ "Not a strong fit at this time" +:+ dquote +:+ ").

**Interview Transcript and Evaluations:**
" +:+ transcript +:+ nl.

(** ** [evaluate_answer] and [generate_final_report] *)

Definition evaluate_answer (w : World) (question answer rubric : string)
  : list Event * Evaluation :=
  let prompt := EVALUATION_PROMPT question answer rubric in
  match eval_model w prompt with
  | Returns e => ([EvaluatorCall prompt], e)
  | Raises e =>
      ([EvaluatorCall prompt;
        StError ("An error occurred during evaluation: " +:+ e
                 +:+ ". The response may not be valid JSON.")],
       mkEvaluation 0 ("Error during evaluation. Details: " +:+ e))
  end.

(** The body of the loop [for i, res in enumerate(results)], from index [i]. *)
Fixpoint transcript_from (i : nat) (results : list TurnRecord) : string :=
  match results with
  | [] => ""
  | res :: rest =>
      "**Question " +:+ str_int (Z.of_nat (i + 1)) +:+ ":** " +:+ turn_question res +:+ nl
      +:+ "**Candidate's Answer:** " +:+ answer res +:+ nl
      +:+ "**Score:** " +:+ str_int (score (evaluation res)) +:+ "/5" +:+ nl
      +:+ "**Justification:** " +:+ justification (evaluation res)
      +:+ nl +:+ nl +:+ "---" +:+ nl +:+ nl
      +:+ transcript_from (S i) rest
  end.

Definition generate_final_report (w : World) (results : list TurnRecord)
  : list Event * string :=
  let prompt := FINAL_REPORT_PROMPT (transcript_from 0 results) in
  match report_model w prompt with
  | Returns text => ([ReportCall prompt], text)
  | Raises e =>
      ([ReportCall prompt;
        StError ("An error occurred while generating the report: " +:+ e)],
       "Could not generate the final report due to an error.")
  end.

(** ** Session creation *)

Definition INTERVIEW_LENGTH : nat := 3.

(** [random.sample(population, k)]: [k] elements taken at distinct positions
    of [population].  The [i]-th element is the one at position
    [rng i mod len(pool)] of the elements not yet taken, which is then
    removed from the pool; every selection of [k] distinct positions, in every
    order, is the result for some [rng].  The script only calls it with
    [k < len(population)], where Python does not raise [ValueError]. *)
Fixpoint random_sample {A} (rng : nat -> nat) (i : nat) (population : list A) (k : nat)
  : list A :=
  match k with
  | 0 => []
  | S k' =>
      let j := rng i mod length population in
      match population !! j with
      | Some x => x :: random_sample rng (S i) (delete j population) k'
      | None => []
      end
  end.

Definition welcome_text (n : nat) : string :=
"Hello! I'm your adaptive AI interviewer.

**Hereâ€™s how this will work:**
1.  I will ask you a series of questions to assess your Excel skills.
2.  If an answer isn't quite right, I may give you a hint and a chance to try again.
3.  The interview will adapt based on your performance and may end early if a clear skill level is determined.

This session will have up to **" +:+ str_int (Z.of_nat n) +:+ " questions**. Ready? Type **'start'**.
".

(** The block under [if 'stage' not in st.session_state];
    [full_question_list] is the value of [load_questions()]. *)
Definition new_session (w : World) (full_question_list : list Question) : SessionState :=
  let interview_questions :=
    if (INTERVIEW_LENGTH <? length full_question_list)%nat
    then random_sample (rng w) 0 full_question_list INTERVIEW_LENGTH
    else full_question_list in
  mkSession welcome 0 [] false interview_questions
            [mkMessage assistant (welcome_text (length interview_questions))]
            None.

(** ** Average score and early-stop threshold *)

(** [sum(res['evaluation']['score'] for res in results)] *)
Definition total_score (results : list TurnRecord) : Z :=
  foldr (fun res acc => (score (evaluation res) + acc)%Z) 0%Z results.

(** Lines 142-145: [0] unless [results] is non-empty. *)
Definition average_score (results : list TurnRecord) : Q :=
  match results with
  | [] => 0%Q
  | _ => (inject_Z (total_score results) / inject_Z (Z.of_nat (length results)))%Q
  end.

(** [x < y] on the numbers the script compares. *)
Definition Qlt_bool (x y : Q) : bool := negb (Qle_bool y x).

(** [math.ceil(total_questions * 0.75)] *)
Definition seventy_five_percent_mark (total_questions : nat) : Z :=
  Qceiling (inject_Z (Z.of_nat total_questions) * 0.75)%Q.

(** ** Messages of the interview *)

Definition default_hint : string := "Let's think about that from another angle.".

Definition hint_response (hint : string) : string :=
  "That's not quite what I was looking for. Here's a hint: *" +:+ hint
  +:+ "* " +:+ nl +:+ nl +:+ "Why don't you try answering that question again?".

Definition early_stop_response : string :=
  "Thank you for your time. Based on the responses so far, I have enough information to complete the assessment. I will now generate your performance report.".

Definition next_question_response (next_question : string) : string :=
  "Thank you. Here is the next question:" +:+ nl +:+ nl +:+ next_question.

Definition final_question_response : string :=
  "Thank you, that was the final question. Please wait a moment while I generate your performance report.".

(** ** One execution of the script *)

(** Lines 196-200: the answer is recorded and the index advances. *)
Definition accept_answer (q : Question) (prompt : string) (e : Evaluation)
    (s : SessionState) : SessionState :=
  mkSession (stage s) (q_index s + 1)
            (results s ++ [mkTurn (question q) prompt e])
            false (interview_questions s) (messages s) (report s).

(** Lines 202-223, entered with the state after [accept_answer].
    [total_questions] and [average_score] are the values that lines 138-145
    computed at the top of this execution, before the answer was read. *)
Definition after_accept (total_questions : nat) (average_score : Q)
    (s : SessionState) : SessionState * Exit :=
  if ((seventy_five_percent_mark total_questions <=? Z.of_nat (q_index s))%Z
      && Qlt_bool 0 average_score && Qlt_bool average_score 3.0)%bool
  then (append_message assistant early_stop_response
          (set_stage interview_finished s), StRerun)
  else if (q_index s <? total_questions)%nat
  then match interview_questions s !! q_index s with
       | Some next => (append_message assistant
                         (next_question_response (question next)) s, ScriptEnd)
       | None => (s, IndexError)
       end
  else (append_message assistant final_question_response
          (set_stage interview_finished s), StRerun).

(** Lines 182-223, for the current question [q] and the answer [prompt]. *)
Definition interviewing_step (w : World) (total_questions : nat) (average_score : Q)
    (q : Question) (prompt : string) (s : SessionState) : Outcome :=
  let '(calls, evaluation) :=
    evaluate_answer w (question q) prompt (default "" (rubric q)) in
  if ((score evaluation <? 3)%Z && negb (retry_attempt s))%bool
  then
    let s1 := mkSession (stage s) (q_index s) (results s) true
                        (interview_questions s) (messages s) (report s) in
    mkOutcome (append_message assistant
                 (hint_response (default default_hint (hint q))) s1)
              calls ScriptEnd
  else
    let '(s2, e) :=
      after_accept total_questions average_score (accept_answer q prompt evaluation s) in
    mkOutcome s2 calls e.

(** Lines 169-223: [prompt] is what [st.chat_input] returned. *)
Definition on_input (w : World) (total_questions : nat) (average_score : Q)
    (prompt : string) (s : SessionState) : Outcome :=
  let s := append_message user prompt s in
  match stage s with
  | welcome =>
      if contains "start" (lower prompt)
      then
        let s := set_stage interviewing s in
        match interview_questions s !! 0 with
        | Some first => mkOutcome (append_message assistant (question first) s)
                                  [] ScriptEnd
        | None => mkOutcome s [] IndexError
        end
      else mkOutcome s [] ScriptEnd
  | interviewing =>
      match interview_questions s !! q_index s with
      | Some current_q_data =>
          interviewing_step w total_questions average_score current_q_data prompt s
      | None => mkOutcome s [] IndexError
      end
  | interview_finished => mkOutcome s [] ScriptEnd
  end.

(** The whole script.  [session] is [None] for a browser session that has no
    ['stage'] key yet; [input] is the value of [st.chat_input], [None] when
    nothing was submitted (an empty string is falsy as well). *)
Definition script (w : World) (full_question_list : list Question)
    (session : option SessionState) (input : option string) : Outcome :=
  let s := match session with
           | Some s => s
           | None => new_session w full_question_list
           end in
  let total_questions := length (interview_questions s) in
  let average_score := average_score (results s) in
  if decide (stage s = interview_finished)
  then
    match report s with
    | None =>
        let '(calls, text) := generate_final_report w (results s) in
        mkOutcome (set_report text s) calls StStop
    | Some _ => mkOutcome s [] StStop
    end
  else
    match input with
    | Some prompt =>
        if decide (prompt = "") then mkOutcome s [] ScriptEnd
        else on_input w total_questions average_score prompt s
    | None => mkOutcome s [] ScriptEnd
    end.

(** What one user action does: the script runs with the input and, when it
    ends in [st.rerun()], runs once more without input. *)
Definition submit (w : World) (full_question_list : list Question)
    (session : option SessionState) (input : option string) : Outcome :=
  let o := script w full_question_list session input in
  match exit o with
  | StRerun =>
      let o' := script w full_question_list (Some (state o)) None in
      mkOutcome (state o') (trace o ++ trace o') (exit o')
  | _ => o
  end.

(** ** Sessions *)

(** A user session: the actions of the user, one after the other, each with
    the world it meets.  The result is the state left behind, the calls and
    banners of all actions, and how each action ended. *)
Fixpoint run_session (full_question_list : list Question)
    (session : option SessionState) (actions : list (World * option string))
  : option SessionState * list Event * list Exit :=
  match actions with
  | [] => (session, [], [])
  | (w, input) :: rest =>
      let o := submit w full_question_list session input in
      let '(s, t, e) := run_session full_question_list (Some (state o)) rest in
      (s, (trace o ++ t), exit o :: e)
  end.

(** The view rendered again and again: the script executed once per element
    of [runs], whatever the browser sends. *)
Fixpoint rerender (full_question_list : list Question) (s : SessionState)
    (runs : list (World * option string)) : SessionState * list Event :=
  match runs with
  | [] => (s, [])
  | (w, input) :: rest =>
      let o := script w full_question_list (Some s) input in
      let '(s', t) := rerender full_question_list (state o) rest in
      (s', (trace o ++ t))
  end.

(** The prompts of the calls to the report model in a trace. *)
Fixpoint report_prompts (t : list Event) : list string :=
  match t with
  | [] => []
  | ReportCall p :: rest => p :: report_prompts rest
  | _ :: rest => report_prompts rest
  end.

(** The states a session over the question bank [bank] can be in. *)
Inductive reachable (bank : list Question) : SessionState -> Prop :=
  | reach_new (w : World) :
      reachable bank (new_session w bank)
  | reach_run (w : World) (s : SessionState) (input : option string) :
      reachable bank s ->
      reachable bank (state (script w bank (Some s) input)).

(** What holds of every reachable state. *)
Record session_invariant (bank : list Question) (s : SessionState) : Prop := {
  inv_index : q_index s <= length (interview_questions s);
  inv_results : length (results s) = q_index s;
  inv_welcome : stage s = welcome ->
                q_index s = 0 /\ results s = [] /\ retry_attempt s = false;
  inv_report : stage s <> interview_finished -> report s = None;
  inv_length : length (interview_questions s)
               = Nat.min INTERVIEW_LENGTH (length bank)
}.

(** The evaluation that the answer [prompt] to the question [q] receives. *)
Definition evaluation_of (w : World) (q : Question) (prompt : string) : Evaluation :=
  snd (evaluate_answer w (question q) prompt (default "" (rubric q))).


(** The early-stop condition as the specification words it, on the state
    [s] in which the answer has just been recorded: the index has reached the
    threshold and the mean of all recorded scores, the last one included, is
    strictly between 0 and 3. *)
Definition early_stop_specified (s : SessionState) : bool :=
  ((seventy_five_percent_mark (length (interview_questions s)) <=? Z.of_nat (q_index s))%Z
   && Qlt_bool 0 (average_score (results s))
   && Qlt_bool (average_score (results s)) 3.0)%bool.

(** The closing message tells which of the two ways into the finished stage
    was taken. *)
Definition closing_message (s : SessionState) : option Message := last (messages s).

(** ** Worlds and banks for concrete sessions *)

(** The evaluator gives every answer the score [k]. *)
Definition scoring (k : Z) : World :=
  mkWorld (fun _ => 0)
          (fun _ => Returns (mkEvaluation k "as the rubric says"))
          (fun _ => Returns "## Overall Summary").

(** Both model calls fail. *)
Definition failing : World :=
  mkWorld (fun _ => 0) (fun _ => Raises "503 unavailable") (fun _ => Raises "503 unavailable").

Definition bank3 : list Question :=
  [ mkQuestion "What does VLOOKUP do?" (Some "Mentions lookup value and column index.")
               (Some "Think of looking up a value in the first column of a range.");
    mkQuestion "What is a pivot table?" None None;
    mkQuestion "How do absolute references differ from relative ones?" (Some "Mentions the dollar sign.") None ].

Definition bank5 : list Question :=
  bank3 ++ [ mkQuestion "What does INDEX MATCH do?" None None;
             mkQuestion "What is conditional formatting?" None None ].

(** The state in which a session over [bank] is after [actions]. *)
Definition end_state (bank : list Question) (actions : list (World * option string))
  : SessionState :=
  match run_session bank None actions with
  | (Some s, _, _) => s
  | (None, _, _) => new_session (scoring 0) bank
  end.

(** The first question of [bank3] has just been asked. *)
Definition started3 : SessionState :=
  end_state bank3 [(scoring 4, Some "start")].

(** Two answers were accepted with the scores 3 and 3, the third answer
    scored 1 and the hint was given. *)
Definition two_threes_then_hint : SessionState :=
  end_state bank3 [(scoring 4, Some "start"); (scoring 3, Some "first answer");
                   (scoring 3, Some "second answer"); (scoring 1, Some "third answer")].

(** Two answers were accepted with the scores 2 and 2, each at the second
    attempt; the third question is open. *)
Definition two_twos : SessionState :=
  end_state bank3 [(scoring 4, Some "start");
                   (scoring 2, Some "first answer"); (scoring 2, Some "first answer again");
                   (scoring 2, Some "second answer"); (scoring 2, Some "second answer again")].


(** A whole interview over a bank of five questions: scores 4, 2, 2 and 1, 1. *)
Definition finished5 : SessionState :=
  end_state bank5 [(scoring 4, Some "start"); (scoring 4, Some "first answer");
                   (scoring 2, Some "second answer"); (scoring 2, Some "second answer again");
                   (scoring 1, Some "third answer"); (scoring 1, Some "third answer again")].

(** ** The page header and the logs *)

(** Lines 138-140: the value handed to [st.progress], computed at the top of
    the script from the state the execution starts in; the quotient of two
    integers is embedded exactly, as for the average. *)
Definition progress_percent (s : SessionState) : Q :=
  let total_questions := length (interview_questions s) in
  let questions_answered := q_index s in
  if (0 <? total_questions)%nat
  then (inject_Z (Z.of_nat questions_answered) / inject_Z (Z.of_nat total_questions))%Q
  else 0%Q.

(** The prompts of the calls to the evaluator model in a trace. *)
Fixpoint evaluator_prompts (t : list Event) : list string :=
  match t with
  | [] => []
  | EvaluatorCall p :: rest => p :: evaluator_prompts rest
  | _ :: rest => evaluator_prompts rest
  end.

(** The stages in the order in which the script assigns them. *)
Definition stage_rank (x : Stage) : nat :=
  match x with
  | welcome => 0
  | interviewing => 1
  | interview_finished => 2
  end.

(** The four lines that one pass of the loop of [generate_final_report]
    adds to the transcript, for the result [res] at index [i]. *)
Definition transcript_entry (i : nat) (res : TurnRecord) : string :=
  "**Question " +:+ str_int (Z.of_nat (i + 1)) +:+ ":** " +:+ turn_question res +:+ nl
  +:+ "**Candidate's Answer:** " +:+ answer res +:+ nl
  +:+ "**Score:** " +:+ str_int (score (evaluation res)) +:+ "/5" +:+ nl
  +:+ "**Justification:** " +:+ justification (evaluation res)
  +:+ nl +:+ nl +:+ "---" +:+ nl +:+ nl.



(** A session over an empty bank in which "start" was typed. *)
Definition started_empty : SessionState :=
  end_state [] [(scoring 4, Some "start")].

(** What holds of every reachable state besides [session_invariant]: the
    results follow the questions, a pending retry belongs to an open
    question, an interview with questions always has a current one, and a
    finished interview has reached the early-stop threshold. *)
Record interview_invariant (s : SessionState) : Prop := {
  inv_order :
    Forall2 (fun t q => turn_question t = question q)
            (results s) (take (q_index s) (interview_questions s));
  inv_retry :
    retry_attempt s = true ->
    stage s = interviewing /\ q_index s < length (interview_questions s);
  inv_open :
    stage s = interviewing -> interview_questions s <> [] ->
    q_index s < length (interview_questions s);
  inv_finished :
    stage s = interview_finished ->
    (seventy_five_percent_mark (length (interview_questions s))
     <= Z.of_nat (q_index s))%Z
    /\ 1 <= q_index s
}.

(** * Properties *)

(** ** The script, case by case *)

Lemma script_finished w bank s input :
  stage s = interview_finished ->
  script w bank (Some s) input =
    match report s with
    | None => mkOutcome (set_report (snd (generate_final_report w (results s))) s)
                        (fst (generate_final_report w (results s))) StStop
    | Some _ => mkOutcome s [] StStop
    end.
Proof.
  intros Hst. unfold script. rewrite decide_True by done.
  destruct (report s); [done|]. by destruct (generate_final_report w (results s)).
Qed.

Lemma script_no_input w bank s :
  stage s <> interview_finished ->
  script w bank (Some s) None = mkOutcome s [] ScriptEnd.
Proof. intros Hst. unfold script. by rewrite decide_False. Qed.

Lemma script_input w bank s prompt :
  stage s <> interview_finished -> prompt <> "" ->
  script w bank (Some s) (Some prompt) =
    on_input w (length (interview_questions s)) (average_score (results s)) prompt s.
Proof.
  intros Hst Hp. unfold script. rewrite decide_False by done.
  by rewrite decide_False.
Qed.

Lemma script_new_session w bank input :
  script w bank None input = script w bank (Some (new_session w bank)) input.
Proof. reflexivity. Qed.

Lemma after_accept_cases total avg s :
  (exists m, after_accept total avg s = (append_message assistant m (set_stage interview_finished s), StRerun))
  \/ (exists m, after_accept total avg s = (append_message assistant m s, ScriptEnd))
  \/ after_accept total avg s = (s, IndexError).
Proof.
  unfold after_accept.
  repeat case_match; eauto.
Qed.

(** ** The invariant *)

Lemma random_sample_length {A} (r : nat -> nat) (l : list A) k i :
  k <= length l -> length (random_sample r i l k) = k.
Proof.
  revert l i. induction k as [|k IH]; intros l i Hk; [done|].
  simpl. destruct l as [|a l]; [simpl in Hk; lia|].
  assert (Hj : r i mod length (a :: l) < length (a :: l)).
  { apply Nat.mod_upper_bound. simpl. lia. }
  destruct (lookup_lt_is_Some_2 _ _ Hj) as [x Hx]. rewrite Hx. simpl.
  rewrite IH; [done|]. rewrite length_delete by eauto. simpl in *. lia.
Qed.

Lemma new_session_length w bank :
  length (interview_questions (new_session w bank))
  = Nat.min INTERVIEW_LENGTH (length bank).
Proof.
  unfold new_session. cbv zeta. cbn [interview_questions].
  destruct (Nat.ltb_spec INTERVIEW_LENGTH (length bank)).
  - rewrite random_sample_length by lia. lia.
  - lia.
Qed.

Lemma new_session_invariant w bank : session_invariant bank (new_session w bank).
Proof.
  split; try done.
  - simpl. lia.
  - apply new_session_length.
Qed.

Lemma after_accept_invariant bank total avg s :
  q_index s <= length (interview_questions s) ->
  length (results s) = q_index s ->
  stage s = interviewing ->
  report s = None ->
  length (interview_questions s) = Nat.min INTERVIEW_LENGTH (length bank) ->
  session_invariant bank (fst (after_accept total avg s)).
Proof.
  intros H1 H2 H3 H4 H5.
  destruct (after_accept_cases total avg s) as [[m ->]|[[m ->]| ->]];
    split; simpl; try done; rewrite ?H3; done.
Qed.

Lemma script_invariant w bank s input :
  session_invariant bank s ->
  session_invariant bank (state (script w bank (Some s) input)).
Proof.
  intros [H1 H2 H3 H4 H5].
  destruct (decide (stage s = interview_finished)) as [Hf|Hf].
  { rewrite script_finished by done.
    destruct (report s); split; simpl; try done; by rewrite Hf. }
  destruct input as [prompt|]; [|by rewrite script_no_input].
  destruct (decide (prompt = "")) as [->|Hp].
  { unfold script. rewrite decide_False by done. by rewrite decide_True. }
  rewrite script_input by done. unfold on_input. simpl.
  destruct (stage s) eqn:Hst; [| |done].
  - destruct (H3 eq_refl) as (Hq & Hr & Hretry).
    destruct (contains "start" (lower prompt)); simpl.
    + destruct (interview_questions s !! 0); split; simpl; try done; auto.
    + split; simpl; try done; auto.
  - destruct (interview_questions s !! q_index s) as [q|] eqn:Hq; simpl.
    2:{ split; simpl; try done; auto; congruence. }
    unfold interviewing_step.
    destruct (evaluate_answer _ _ _ _) as [calls e].
    destruct (_ && _)%bool; simpl.
    + split; simpl; try done; auto; congruence.
    + destruct (after_accept _ _ _) as [s2 ex] eqn:Hacc. simpl.
      change s2 with (fst (s2, ex)). rewrite <- Hacc.
      apply lookup_lt_Some in Hq.
      apply after_accept_invariant; simpl; try done.
      * lia.
      * rewrite length_app. simpl. lia.
      * auto.
Qed.

Lemma reachable_invariant bank s : reachable bank s -> session_invariant bank s.
Proof.
  induction 1 as [w|w s input _ IH].
  - apply new_session_invariant.
  - by apply script_invariant.
Qed.

(** ** The interviewing stage *)

Lemma script_retry w bank s prompt q :
  stage s = interviewing -> prompt <> "" ->
  interview_questions s !! q_index s = Some q ->
  (score (evaluation_of w q prompt) < 3)%Z ->
  retry_attempt s = false ->
  script w bank (Some s) (Some prompt) =
    mkOutcome
      (mkSession interviewing (q_index s) (results s) true (interview_questions s)
         (messages s ++ [mkMessage user prompt;
                         mkMessage assistant (hint_response (default default_hint (hint q)))])
         (report s))
      (fst (evaluate_answer w (question q) prompt (default "" (rubric q))))
      ScriptEnd.
Proof.
  intros Hst Hp Hq Hlow Hretry.
  rewrite script_input by (done || congruence).
  unfold on_input. cbn [stage append_message interview_questions q_index].
  rewrite Hst, Hq. unfold interviewing_step, evaluation_of in *.
  destruct (evaluate_answer _ _ _ _) as [calls e]. simpl in Hlow.
  cbn [retry_attempt append_message]. rewrite Hretry.
  destruct (Z.ltb_spec (score e) 3); [|lia]. simpl.
  unfold append_message. simpl. rewrite Hst. by rewrite <- app_assoc.
Qed.

Lemma script_accept w bank s prompt q :
  stage s = interviewing -> prompt <> "" ->
  interview_questions s !! q_index s = Some q ->
  (3 <= score (evaluation_of w q prompt))%Z \/ retry_attempt s = true ->
  script w bank (Some s) (Some prompt) =
    let r := after_accept (length (interview_questions s)) (average_score (results s))
               (accept_answer q prompt (evaluation_of w q prompt)
                  (append_message user prompt s)) in
    mkOutcome (fst r)
      (fst (evaluate_answer w (question q) prompt (default "" (rubric q))))
      (snd r).
Proof.
  intros Hst Hp Hq Hacc.
  rewrite script_input by (done || congruence).
  unfold on_input. cbn [stage append_message interview_questions q_index].
  rewrite Hst, Hq. unfold interviewing_step, evaluation_of in *.
  destruct (evaluate_answer _ _ _ _) as [calls e]. simpl in Hacc.
  cbn [retry_attempt append_message fst snd].
  assert (((score e <? 3)%Z && negb (retry_attempt s))%bool = false) as ->.
  { destruct Hacc as [H| ->].
    - destruct (Z.ltb_spec (score e) 3); [lia|done].
    - by rewrite andb_false_r. }
  by destruct (after_accept _ _ _).
Qed.

Lemma after_accept_index total avg s :
  q_index (fst (after_accept total avg s)) = q_index s
  /\ results (fst (after_accept total avg s)) = results s
  /\ retry_attempt (fst (after_accept total avg s)) = retry_attempt s
  /\ interview_questions (fst (after_accept total avg s)) = interview_questions s
  /\ report (fst (after_accept total avg s)) = report s.
Proof.
  by destruct (after_accept_cases total avg s) as [[m ->]|[[m ->]| ->]].
Qed.

(** One execution of the script records at most one answer, and the index
    moves with the record. *)
Lemma script_index_step w bank s input :
  let s' := state (script w bank (Some s) input) in
  (q_index s' = q_index s /\ results s' = results s)
  \/ (q_index s' = q_index s + 1 /\ exists t, results s' = results s ++ [t]).
Proof.
  cbv zeta.
  destruct (decide (stage s = interview_finished)) as [Hf|Hf].
  { rewrite script_finished by done. destruct (report s); by left. }
  destruct input as [prompt|]; [|rewrite script_no_input by done; by left].
  destruct (decide (prompt = "")) as [->|Hp].
  { unfold script. rewrite decide_False by done. rewrite decide_True by done. by left. }
  destruct (stage s) eqn:Hst; [| |done].
  - rewrite script_input by (done || congruence). unfold on_input. simpl. rewrite Hst.
    destruct (contains _ _); [destruct (_ !! 0)|]; by left.
  - destruct (interview_questions s !! q_index s) as [q|] eqn:Hq.
    2:{ rewrite script_input by (done || congruence). unfold on_input. simpl.
        rewrite Hst, Hq. by left. }
    destruct (Z.ltb_spec (score (evaluation_of w q prompt)) 3) as [Hlow|Hhigh].
    + destruct (retry_attempt s) eqn:Hretry.
      * rewrite (script_accept _ _ _ _ q) by auto. cbv zeta. cbn [state].
        destruct (after_accept_index (length (interview_questions s))
                    (average_score (results s))
                    (accept_answer q prompt (evaluation_of w q prompt)
                       (append_message user prompt s))) as (-> & -> & _).
        right. simpl. eauto.
      * rewrite (script_retry _ _ _ _ q) by auto. by left.
    + rewrite (script_accept _ _ _ _ q) by auto. cbv zeta. cbn [state].
      destruct (after_accept_index (length (interview_questions s))
                  (average_score (results s))
                  (accept_answer q prompt (evaluation_of w q prompt)
                     (append_message user prompt s))) as (-> & -> & _).
      right. simpl. eauto.
Qed.

(** ** Reachable states of concrete sessions *)

Lemma reachable_submit w bank s input :
  reachable bank s -> reachable bank (state (submit w bank (Some s) input)).
Proof.
  intros Hs. unfold submit.
  destruct (exit (script w bank (Some s) input)); try by apply reach_run.
  cbn [state]. by do 2 apply reach_run.
Qed.

Lemma reachable_first_submit w bank input :
  reachable bank (state (submit w bank None input)).
Proof.
  assert (Hnew : reachable bank (state (script w bank None input))).
  { rewrite script_new_session. apply reach_run, reach_new. }
  unfold submit. destruct (exit (script w bank None input)); try done.
  cbn [state]. by apply reach_run.
Qed.

Lemma reachable_run_session bank s actions :
  reachable bank s ->
  exists s', fst (fst (run_session bank (Some s) actions)) = Some s' /\ reachable bank s'.
Proof.
  revert s. induction actions as [|[w input] rest IH]; intros s Hs; simpl.
  - eauto.
  - destruct (IH _ (reachable_submit w bank s input Hs)) as (s' & Heq & Hs').
    destruct (run_session bank _ rest) as [[r t] e]. simpl in *. eauto.
Qed.

Lemma reachable_end_state bank actions : reachable bank (end_state bank actions).
Proof.
  unfold end_state. destruct actions as [|[w input] rest]; simpl.
  - apply reach_new.
  - destruct (reachable_run_session bank _ rest (reachable_first_submit w bank input))
      as (s' & Heq & Hs').
    destruct (run_session bank _ rest) as [[r t] e]. simpl in Heq. by subst r.
Qed.

(** ** The index and the results *)

(** C3. In every reachable state the question index lies between 0 and the
    number of sampled questions and equals the number of recorded results;
    every execution of the script keeps this, never lowers the index, and
    raises it by one exactly when it appends one record to the results. *)
Theorem index_invariant (bank : list Question) (s : SessionState)
    (w : World) (input : option string) :
  reachable bank s ->
  let s' := state (script w bank (Some s) input) in
  (0 <= q_index s <= length (interview_questions s)
   /\ length (results s) = q_index s)
  /\ (0 <= q_index s' <= length (interview_questions s')
      /\ length (results s') = q_index s')
  /\ q_index s <= q_index s'
  /\ ((q_index s' = q_index s /\ results s' = results s)
      \/ (q_index s' = q_index s + 1 /\ exists t, results s' = results s ++ [t])).
Proof.
  intros Hs s'.
  pose proof (reachable_invariant bank s Hs) as [H1 H2 _ _ _].
  pose proof (reachable_invariant bank s' (reach_run bank w s input Hs)) as [H1' H2' _ _ _].
  pose proof (script_index_step w bank s input) as Hstep. cbv zeta in Hstep.
  fold s' in Hstep.
  repeat split; try lia; try done.
Qed.

Lemma index_invariant_witness :
  reachable bank3 started3 /\
  q_index (state (script (scoring 4) bank3 (Some started3) (Some "it looks values up")))
  = q_index started3 + 1.
Proof.
  split; [apply reachable_end_state|].
  pose proof (index_invariant bank3 started3 (scoring 4) (Some "it looks values up")
                (reachable_end_state _ _)) as H.
  cbv zeta in H. destruct H as (_ & _ & _ & [[H _]|[H _]]).
  - vm_compute in H. discriminate H.
  - exact H.
Defined.

(** ** The retry policy *)



(** ** Evaluator failures *)



(** With the number of questions as the script computes it, the lookup of
    the next question cannot fail. *)
Lemma after_accept_no_error avg s :
  snd (after_accept (length (interview_questions s)) avg s) <> IndexError.
Proof.
  unfold after_accept. destruct (_ && _)%bool; [done|].
  destruct (Nat.ltb_spec (q_index s) (length (interview_questions s))) as [Hlt|Hge];
    [|done].
  destruct (lookup_lt_is_Some_2 _ _ Hlt) as [x ->]. done.
Qed.



(** ** The finished stage *)

Lemma rerender_finished_cached bank s runs :
  stage s = interview_finished -> is_Some (report s) ->
  rerender bank s runs = (s, []).
Proof.
  intros Hst [r Hr]. induction runs as [|[w input] rest IH]; [done|].
  simpl. rewrite script_finished by done. rewrite Hr. cbn [state trace].
  by rewrite IH.
Qed.

Lemma rerender_stage bank s runs :
  stage s = interview_finished ->
  stage (fst (rerender bank s runs)) = interview_finished.
Proof.
  revert s. induction runs as [|[w input] rest IH]; intros s Hst; [done|].
  simpl. specialize (IH (state (script w bank (Some s) input))).
  destruct (rerender bank _ rest) as [s' t]. apply IH.
  rewrite script_finished by done. by destruct (report s).
Qed.

(** C8. Once the stage is [interview_finished] it stays so through every
    execution of the script; the script stops before it reads the input, so
    what the user sends changes nothing, and apart from the report being
    stored the first time the session state stays as it is. *)
Theorem finished_is_terminal (w : World) (bank : list Question) (s : SessionState)
    (input : option string) (runs : list (World * option string)) :
  stage s = interview_finished ->
  let o := script w bank (Some s) input in
  stage (state o) = interview_finished
  /\ exit o = StStop
  /\ o = script w bank (Some s) None
  /\ submit w bank (Some s) input = o
  /\ (q_index (state o) = q_index s
      /\ results (state o) = results s
      /\ retry_attempt (state o) = retry_attempt s
      /\ interview_questions (state o) = interview_questions s
      /\ messages (state o) = messages s)
  /\ (is_Some (report s) -> state o = s /\ trace o = [])
  /\ stage (fst (rerender bank s runs)) = interview_finished.
Proof.
  intros Hst o. unfold submit. fold o.
  assert (Ho : o = script w bank (Some s) input) by done.
  rewrite script_finished in Ho by done.
  rewrite (script_finished w bank s None) by done.
  split_and!; try (rewrite Ho; by destruct (report s)).
  by apply rerender_stage.
Qed.

Lemma finished_is_terminal_witness :
  stage finished5 = interview_finished
  /\ state (script (scoring 5) bank5 (Some finished5) (Some "one more answer"))
     = finished5.
Proof.
  split; [vm_compute; reflexivity|].
  pose proof (finished_is_terminal (scoring 5) bank5 finished5 (Some "one more answer") []
                ltac:(vm_compute; reflexivity)) as H.
  cbv zeta in H. destruct H as (_ & _ & _ & _ & _ & H & _).
  apply H. vm_compute. eexists. reflexivity.
Defined.

(** ** The report *)

Lemma evaluate_answer_no_report w q a r :
  report_prompts (fst (evaluate_answer w q a r)) = [].
Proof. unfold evaluate_answer. by destruct (eval_model w _). Qed.



(** Outside the finished stage the script never calls the report model and
    never stores a report, and it asks for a rerun exactly when it has moved
    the session to the finished stage. *)
Lemma script_unfinished w bank s input :
  stage s <> interview_finished ->
  let o := script w bank (Some s) input in
  report_prompts (trace o) = []
  /\ report (state o) = report s
  /\ ((exit o = StRerun /\ stage (state o) = interview_finished)
      \/ (exit o <> StRerun /\ stage (state o) <> interview_finished)).
Proof.
  intros Hf o. subst o.
  destruct input as [prompt|]; [|rewrite script_no_input by done; auto].
  destruct (decide (prompt = "")) as [->|Hp].
  { unfold script. rewrite decide_False by done. rewrite decide_True by done. auto. }
  rewrite script_input by done. unfold on_input.
  cbn [stage append_message interview_questions q_index].
  destruct (stage s) eqn:Hst; [| |done].
  - destruct (contains _ _); [destruct (_ !! 0)|]; simpl; rewrite ?Hst; auto.
  - destruct (interview_questions s !! q_index s) as [q|]; simpl; rewrite ?Hst; auto.
    unfold interviewing_step.
    pose proof (evaluate_answer_no_report w (question q) prompt (default "" (rubric q))) as Hnr.
    destruct (evaluate_answer _ _ _ _) as [calls e]. simpl in Hnr.
    destruct (_ && _)%bool; simpl; rewrite ?Hst; auto.
    match goal with |- context [after_accept ?t ?a ?x] =>
      destruct (after_accept_cases t a x) as [[m ->]|[[m ->]| ->]] end;
      simpl; rewrite ?Hst; auto.
Qed.



(** ** The welcome stage *)

(** C7 (amended). In the welcome stage, an input whose lower-cased text
    contains "start" moves the stage to interviewing and shows the first
    sampled question, when there is one, while the index stays 0; any other
    input shows no question and leaves the stage, the index, the results, the
    retry flag, the questions and the report as they were, the only change
    being that the text is appended to the conversation log. *)
Theorem welcome_start (w : World) (bank : list Question) (s : SessionState)
    (prompt : string) :
  reachable bank s ->
  stage s = welcome ->
  prompt <> "" ->
  let o := script w bank (Some s) (Some prompt) in
  (contains "start" (lower prompt) = true ->
   forall first, interview_questions s !! 0 = Some first ->
     state o = mkSession interviewing 0 [] false (interview_questions s)
                 (messages s ++ [mkMessage user prompt;
                                 mkMessage assistant (question first)])
                 None
     /\ trace o = [] /\ exit o = ScriptEnd)
  /\ (contains "start" (lower prompt) = false ->
      state o = mkSession welcome 0 [] false (interview_questions s)
                  (messages s ++ [mkMessage user prompt]) None
      /\ stage (state o) = stage s
      /\ q_index (state o) = q_index s
      /\ results (state o) = results s
      /\ retry_attempt (state o) = retry_attempt s
      /\ interview_questions (state o) = interview_questions s
      /\ report (state o) = report s
      /\ trace o = [] /\ exit o = ScriptEnd).
Proof.
  intros Hs Hst Hp o.
  pose proof (reachable_invariant bank s Hs) as [_ _ Hw Hrep _].
  destruct (Hw Hst) as (Hq & Hr & Hretry).
  assert (Hnone : report s = None) by (apply Hrep; congruence).
  subst o. rewrite script_input by (done || congruence).
  unfold on_input. cbn [stage append_message interview_questions]. rewrite Hst.
  split.
  - intros -> first Hfirst.
    cbn [set_stage append_message interview_questions]. rewrite Hfirst.
    cbn [state trace exit stage q_index results retry_attempt messages report
         interview_questions].
    unfold append_message, set_stage.
    cbn [stage q_index results retry_attempt messages report interview_questions].
    rewrite Hq, Hr, Hretry, Hnone. by rewrite <- app_assoc.
  - intros ->.
    cbn [state trace exit stage q_index results retry_attempt messages report
         interview_questions].
    unfold append_message.
    cbn [stage q_index results retry_attempt messages report interview_questions].
    rewrite Hst, Hq, Hr, Hretry, Hnone. done.
Qed.

Lemma welcome_start_witness :
  let s := new_session (scoring 4) bank5 in
  let o := script (scoring 4) bank5 (Some s) (Some "OK, Start!") in
  stage s = welcome
  /\ contains "start" (lower "OK, Start!") = true
  /\ stage (state o) = interviewing
  /\ q_index (state o) = 0.
Proof.
  cbv zeta.
  pose proof (welcome_start (scoring 4) bank5 (new_session (scoring 4) bank5) "OK, Start!"
                (reach_new _ _) eq_refl ltac:(discriminate)) as H.
  cbv zeta in H. destruct H as [H _].
  specialize (H ltac:(vm_compute; reflexivity) _ ltac:(vm_compute; reflexivity)).
  destruct H as (H & _).
  split; [reflexivity|]. split; [vm_compute; reflexivity|].
  rewrite H. split; reflexivity.
Defined.

(** C7, as stated, fails: an input without "start" in the welcome stage does
    change the session state, its text is appended to [messages]. *)
Lemma welcome_input_is_logged :
  let s := new_session (scoring 4) bank3 in
  let o := script (scoring 4) bank3 (Some s) (Some "hello") in
  stage s = welcome
  /\ contains "start" (lower "hello") = false
  /\ messages (state o) = messages s ++ [mkMessage user "hello"]
  /\ state o <> s.
Proof.
  cbv zeta. split; [reflexivity|]. split; [vm_compute; reflexivity|].
  split; [vm_compute; reflexivity|].
  intros H. apply (f_equal (fun x => length (messages x))) in H.
  vm_compute in H. discriminate H.
Qed.

(** ** The average score *)

Lemma Qlt_bool_iff x y : Qlt_bool x y = true <-> (x < y)%Q.
Proof.
  unfold Qlt_bool. rewrite negb_true_iff. split.
  - intros H. apply Qnot_le_lt. intros Hle. apply Qle_bool_iff in Hle. congruence.
  - intros H. destruct (Qle_bool y x) eqn:Hle; [|done].
    apply Qle_bool_iff in Hle. by apply Qlt_not_le in H.
Qed.







(** ** Early stop *)

Lemma closing_message_append r m s :
  closing_message (append_message r m s) = Some (mkMessage r m).
Proof. unfold closing_message, append_message. cbn [messages]. by rewrite last_snoc. Qed.

Lemma next_question_is_not_early_stop q :
  next_question_response q <> early_stop_response.
Proof. unfold next_question_response, early_stop_response. simpl. discriminate. Qed.

Lemma hint_is_not_early_stop h : hint_response h <> early_stop_response.
Proof. unfold hint_response, early_stop_response. simpl. discriminate. Qed.

Lemma final_question_is_not_early_stop :
  final_question_response <> early_stop_response.
Proof. unfold final_question_response, early_stop_response. discriminate. Qed.

(** The condition of line 203. *)
Lemma early_stop_condition total avg i :
  ((seventy_five_percent_mark total <=? Z.of_nat i)%Z
   && Qlt_bool 0 avg && Qlt_bool avg 3.0)%bool = true
  <-> (seventy_five_percent_mark total <= Z.of_nat i)%Z
      /\ (0 < avg)%Q /\ (avg < 3.0)%Q.
Proof. rewrite !andb_true_iff, Z.leb_le, !Qlt_bool_iff. tauto. Qed.

(** After an answer has been recorded, the closing message of the early stop
    is shown exactly when the condition of line 203 holds. *)
Lemma after_accept_early_stop avg s :
  closing_message (fst (after_accept (length (interview_questions s)) avg s))
  = Some (mkMessage assistant early_stop_response)
  <-> (seventy_five_percent_mark (length (interview_questions s))
       <= Z.of_nat (q_index s))%Z
      /\ (0 < avg)%Q /\ (avg < 3.0)%Q.
Proof.
  rewrite <- early_stop_condition. unfold after_accept.
  destruct (_ && _ && _)%bool.
  - cbn [fst]. by rewrite closing_message_append.
  - split; [|done].
    destruct (Nat.ltb_spec (q_index s) (length (interview_questions s))) as [Hlt|Hge].
    + destruct (lookup_lt_is_Some_2 _ _ Hlt) as [x ->]. cbn [fst].
      rewrite closing_message_append. intros H.
      apply (inj Some), (f_equal content) in H.
      by apply next_question_is_not_early_stop in H.
    + cbn [fst]. rewrite closing_message_append. intros H.
      apply (inj Some), (f_equal content) in H.
      by apply final_question_is_not_early_stop in H.
Qed.

(** The same for the script: when it records an answer, the early stop is
    decided on the new index and on the average of the results that were
    there before the answer. *)
Lemma script_early_stop w bank s prompt q :
  stage s = interviewing -> prompt <> "" ->
  interview_questions s !! q_index s = Some q ->
  (3 <= score (evaluation_of w q prompt))%Z \/ retry_attempt s = true ->
  closing_message (state (script w bank (Some s) (Some prompt)))
  = Some (mkMessage assistant early_stop_response)
  <-> (seventy_five_percent_mark (length (interview_questions s))
       <= Z.of_nat (q_index s + 1))%Z
      /\ (0 < average_score (results s))%Q
      /\ (average_score (results s) < 3.0)%Q.
Proof.
  intros Hst Hp Hq Hacc. rewrite (script_accept _ _ _ _ q) by done.
  cbv zeta. cbn [state].
  exact (after_accept_early_stop (average_score (results s))
           (accept_answer q prompt (evaluation_of w q prompt)
              (append_message user prompt s))).
Qed.

(** C1: the script against the early-stop rule of the specification.  In
    both sessions the third answer is recorded and the index reaches 3, the
    threshold for three questions.  In the first the recorded scores are 3, 3
    and 1, their mean 7/3 lies strictly between 0 and 3, and the script closes
    with the message of the natural completion; in the second the recorded
    scores are 2, 2 and 5, their mean is exactly 3, and the script closes with
    the message of the early stop.  The script compares the average of the
    results recorded before the answer, 3 and 2. *)
Theorem early_stop_reads_previous_average :
  let o1 := script (scoring 1) bank3 (Some two_threes_then_hint)
                   (Some "third answer again") in
  let o2 := script (scoring 5) bank3 (Some two_twos) (Some "third answer") in
  ((fun r => score (evaluation r)) <$> results (state o1) = [3; 3; 1]%Z
   /\ q_index (state o1) = 3
   /\ seventy_five_percent_mark (length (interview_questions (state o1))) = 3%Z
   /\ (average_score (results (state o1)) == 7 # 3)%Q
   /\ early_stop_specified (state o1) = true
   /\ (average_score (results two_threes_then_hint) == 3)%Q
   /\ closing_message (state o1) = Some (mkMessage assistant final_question_response))
  /\ ((fun r => score (evaluation r)) <$> results (state o2) = [2; 2; 5]%Z
      /\ q_index (state o2) = 3
      /\ (average_score (results (state o2)) == 3)%Q
      /\ early_stop_specified (state o2) = false
      /\ (average_score (results two_twos) == 2)%Q
      /\ closing_message (state o2) = Some (mkMessage assistant early_stop_response)).
Proof. cbv zeta. split_and!; vm_compute; reflexivity. Qed.

(** ** The sampled questions *)

Lemma random_sample_fmap {A B} (f : A -> B) r i (l : list A) k :
  random_sample r i (f <$> l) k = f <$> random_sample r i l k.
Proof.
  revert i l. induction k as [|k IH]; intros i l; [done|].
  cbn [random_sample]. rewrite length_fmap, list_lookup_fmap.
  destruct (l !! (r i mod length l)) as [x|]; [|done].
  cbn [fmap option_fmap option_map]. rewrite <- list_fmap_delete, IH. done.
Qed.

Lemma random_sample_elem {A} r i (l : list A) k x :
  x ∈ random_sample r i l k -> x ∈ l.
Proof.
  revert i l. induction k as [|k IH]; intros i l; cbn [random_sample].
  - by intros ?%elem_of_nil.
  - destruct (l !! (r i mod length l)) as [y|] eqn:Hy; [|by intros ?%elem_of_nil].
    intros [->|Hin]%elem_of_cons.
    + by eapply list_elem_of_lookup_2.
    + eapply list_elem_of_delete_inv, IH, Hin.
Qed.

Lemma random_sample_NoDup {A} r i (l : list A) k :
  NoDup l -> NoDup (random_sample r i l k).
Proof.
  revert i l. induction k as [|k IH]; intros i l Hl; cbn [random_sample].
  - constructor.
  - destruct (l !! (r i mod length l)) as [y|] eqn:Hy; [|constructor].
    rewrite (delete_Permutation l _ y Hy) in Hl.
    apply NoDup_cons in Hl as [Hnotin Hrest].
    apply NoDup_cons. split; [|by apply IH].
    intros Hin. by apply random_sample_elem in Hin.
Qed.

(** [random.sample] returns elements at distinct positions of the population. *)
Lemma random_sample_positions {A} r i (l : list A) k :
  exists positions : list nat,
    NoDup positions
    /\ Forall2 (fun p x => l !! p = Some x) positions (random_sample r i l k).
Proof.
  set (indexed := imap (fun p x => (p, x)) l).
  assert (Hfst : fst <$> indexed = seq 0 (length l)).
  { unfold indexed. rewrite fmap_imap.
    rewrite (imap_ext _ (fun p _ => p) l) by done.
    rewrite (imap_seq_0 l (fun p => p)). by rewrite list_fmap_id. }
  assert (Hsnd : snd <$> indexed = l).
  { unfold indexed. rewrite fmap_imap.
    rewrite (imap_ext _ (fun _ x => x) l) by done.
    rewrite (imap_const (fun x => x)). by rewrite list_fmap_id. }
  exists (fst <$> random_sample r i indexed k). split.
  - rewrite <- random_sample_fmap, Hfst. apply random_sample_NoDup, NoDup_seq.
  - replace (random_sample r i l k) with (snd <$> random_sample r i indexed k)
      by (by rewrite <- random_sample_fmap, Hsnd).
    apply Forall2_fmap, Forall_Forall2_diag, Forall_forall.
    intros [p x] Hin. apply random_sample_elem in Hin.
    apply elem_of_lookup_imap in Hin as (p' & x' & [= -> ->] & Hl). done.
Qed.

(** No execution of the script assigns [interview_questions]. *)
Lemma script_questions_fixed w bank s input :
  interview_questions (state (script w bank (Some s) input)) = interview_questions s.
Proof.
  destruct (decide (stage s = interview_finished)) as [Hf|Hf].
  { rewrite script_finished by done. by destruct (report s). }
  destruct input as [prompt|]; [|by rewrite script_no_input].
  destruct (decide (prompt = "")) as [->|Hp].
  { unfold script. rewrite decide_False by done. by rewrite decide_True. }
  rewrite script_input by done. unfold on_input.
  cbn [stage append_message interview_questions q_index].
  destruct (stage s); [| |done].
  - destruct (contains _ _); [destruct (_ !! 0)|]; done.
  - destruct (interview_questions s !! q_index s) as [q|]; [|done].
    unfold interviewing_step.
    destruct (evaluate_answer _ _ _ _) as [calls e].
    destruct (_ && _)%bool; [done|].
    match goal with |- context [after_accept ?t ?a ?x] =>
      destruct (after_accept_cases t a x) as [[m ->]|[[m ->]| ->]] end; done.
Qed.

Lemma reachable_questions bank s :
  reachable bank s ->
  exists w0, interview_questions s = interview_questions (new_session w0 bank).
Proof.
  induction 1 as [w|w s input _ [w0 IH]].
  - by exists w.
  - exists w0. by rewrite script_questions_fixed.
Qed.

(** C9. The questions of a session are chosen when the session is created
    and no execution of the script changes them; there are
    min(INTERVIEW_LENGTH, size of the bank) of them; when the bank is larger
    than INTERVIEW_LENGTH they are the bank's entries at INTERVIEW_LENGTH
    distinct positions, so that no entry of the bank is taken twice, and
    otherwise they are the whole bank. *)
Theorem sampled_questions (w : World) (bank : list Question) :
  let s0 := new_session w bank in
  length (interview_questions s0) = Nat.min INTERVIEW_LENGTH (length bank)
  /\ (length bank <= INTERVIEW_LENGTH -> interview_questions s0 = bank)
  /\ (INTERVIEW_LENGTH < length bank ->
      exists positions : list nat,
        NoDup positions
        /\ length positions = INTERVIEW_LENGTH
        /\ Forall2 (fun p q => bank !! p = Some q) positions (interview_questions s0))
  /\ (INTERVIEW_LENGTH < length bank -> NoDup bank -> NoDup (interview_questions s0))
  /\ (forall s w' input,
        interview_questions (state (script w' bank (Some s) input))
        = interview_questions s)
  /\ (forall s, reachable bank s ->
        exists w0, interview_questions s = interview_questions (new_session w0 bank)).
Proof.
  cbv zeta. split_and!.
  - apply new_session_length.
  - intros Hle. unfold new_session. cbv zeta. cbn [interview_questions].
    destruct (Nat.ltb_spec INTERVIEW_LENGTH (length bank)); [lia|done].
  - intros Hlt.
    assert (Hq : interview_questions (new_session w bank)
                 = random_sample (rng w) 0 bank INTERVIEW_LENGTH).
    { unfold new_session. cbv zeta. cbn [interview_questions].
      destruct (Nat.ltb_spec INTERVIEW_LENGTH (length bank)); [done|lia]. }
    rewrite Hq.
    destruct (random_sample_positions (rng w) 0 bank INTERVIEW_LENGTH)
      as (positions & Hnd & Hall).
    exists positions. split_and!; try done.
    rewrite (Forall2_length _ _ _ Hall). apply random_sample_length. lia.
  - intros Hlt Hnd. unfold new_session. cbv zeta. cbn [interview_questions].
    destruct (Nat.ltb_spec INTERVIEW_LENGTH (length bank)); [|lia].
    by apply random_sample_NoDup.
  - intros s w' input. apply script_questions_fixed.
  - apply reachable_questions.
Qed.

(** ** Three questions *)

Lemma seventy_five_percent_mark_3 : seventy_five_percent_mark 3 = 3%Z.
Proof. reflexivity. Qed.

(** C10. With INTERVIEW_LENGTH = 3 and a bank of at least three questions
    every session has three questions and the early-stop threshold is 3, the
    number of questions.  So when an answer ends the session with the message
    of the early stop, the index has reached the number of questions: no
    question is left out, and the state differs from the one of the natural
    completion in the closing message only. *)
Theorem early_stop_skips_no_question (w : World) (bank : list Question)
    (s : SessionState) (prompt : string) :
  INTERVIEW_LENGTH <= length bank ->
  reachable bank s ->
  stage s = interviewing ->
  prompt <> "" ->
  let o := script w bank (Some s) (Some prompt) in
  let total_questions := length (interview_questions s) in
  total_questions = 3
  /\ seventy_five_percent_mark total_questions = Z.of_nat total_questions
  /\ (closing_message (state o) = Some (mkMessage assistant early_stop_response) ->
      q_index (state o) = total_questions
      /\ stage (state o) = interview_finished
      /\ exists q,
          interview_questions s !! q_index s = Some q
          /\ let recorded := accept_answer q prompt (evaluation_of w q prompt)
                               (append_message user prompt s) in
             state o = append_message assistant early_stop_response
                         (set_stage interview_finished recorded)
             /\ after_accept total_questions 0 recorded
                = (append_message assistant final_question_response
                     (set_stage interview_finished recorded), StRerun)).
Proof.
  intros Hbank Hs Hst Hp o total_questions.
  pose proof (reachable_invariant bank s Hs) as [_ _ _ _ Hlen].
  assert (Htotal : total_questions = 3).
  { unfold total_questions. rewrite Hlen. unfold INTERVIEW_LENGTH in *. lia. }
  split; [done|]. split; [by rewrite Htotal|].
  intros Hclose. subst o.
  destruct (interview_questions s !! q_index s) as [q|] eqn:Hq.
  2:{ rewrite script_input in Hclose by (done || congruence).
      unfold on_input in Hclose.
      cbn [stage append_message interview_questions q_index] in Hclose.
      rewrite Hst, Hq in Hclose. cbn [state] in Hclose.
      rewrite closing_message_append in Hclose. discriminate Hclose. }
  assert (Hacc : (3 <= score (evaluation_of w q prompt))%Z \/ retry_attempt s = true).
  { destruct (Z.ltb_spec (score (evaluation_of w q prompt)) 3) as [Hlow|]; [|by left].
    destruct (retry_attempt s) eqn:Hretry; [by right|].
    rewrite (script_retry _ _ _ _ q) in Hclose by done.
    unfold closing_message in Hclose. cbn [state messages] in Hclose.
    rewrite last_app in Hclose. cbn [last] in Hclose.
    apply (inj Some), (f_equal content) in Hclose.
    by apply hint_is_not_early_stop in Hclose. }
  pose proof Hclose as Hcond.
  apply (script_early_stop _ _ _ _ q) in Hcond; [|done..].
  fold total_questions in Hcond. rewrite Htotal, seventy_five_percent_mark_3 in Hcond.
  destruct Hcond as (Hmark & Hpos & Hsmall).
  pose proof (lookup_lt_Some _ _ _ Hq) as Hlt. fold total_questions in Hlt.
  assert (Hidx : q_index s = 2) by lia.
  rewrite (script_accept _ _ _ _ q) by done. cbv zeta. cbn [state].
  fold total_questions. rewrite Htotal.
  set (recorded := accept_answer q prompt (evaluation_of w q prompt)
                     (append_message user prompt s)).
  assert (Hrec : q_index recorded = 3) by (cbn; lia).
  assert (Hearly : after_accept 3 (average_score (results s)) recorded
                   = (append_message assistant early_stop_response
                        (set_stage interview_finished recorded), StRerun)).
  { unfold after_accept.
    assert (((seventy_five_percent_mark 3 <=? Z.of_nat (q_index recorded))%Z
             && Qlt_bool 0 (average_score (results s))
             && Qlt_bool (average_score (results s)) 3.0)%bool = true) as ->; [|done].
    apply early_stop_condition. rewrite Hrec, seventy_five_percent_mark_3.
    split_and!; [lia|done..]. }
  rewrite Hearly. cbn [fst].
  split; [by rewrite <- Hrec|]. split; [done|].
  exists q. split; [done|]. cbv zeta. fold recorded. split; [done|].
  unfold after_accept. rewrite Hrec. reflexivity.
Qed.

Lemma early_stop_skips_no_question_witness :
  let o := script (scoring 5) bank5 (Some (end_state bank5
             [(scoring 4, Some "start");
              (scoring 2, Some "first answer"); (scoring 2, Some "first answer again");
              (scoring 2, Some "second answer"); (scoring 2, Some "second answer again")]))
             (Some "third answer") in
  INTERVIEW_LENGTH <= length bank5
  /\ closing_message (state o) = Some (mkMessage assistant early_stop_response)
  /\ q_index (state o) = 3.
Proof.
  cbv zeta.
  pose proof (early_stop_skips_no_question (scoring 5) bank5
                (end_state bank5
                   [(scoring 4, Some "start");
                    (scoring 2, Some "first answer"); (scoring 2, Some "first answer again");
                    (scoring 2, Some "second answer"); (scoring 2, Some "second answer again")])
                "third answer"
                ltac:(vm_compute; lia) (reachable_end_state _ _)
                ltac:(vm_compute; reflexivity) ltac:(discriminate)) as H.
  cbv zeta in H. destruct H as (Ht & _ & H).
  specialize (H ltac:(vm_compute; reflexivity)). destruct H as (H & _).
  split; [vm_compute; lia|]. split; [vm_compute; reflexivity|].
  rewrite H. exact Ht.
Defined.

(** * Further properties of the script *)

(** ** Recording an answer *)

(** The three ways in which lines 202-223 end, with the number of questions
    that the script computes. *)
Lemma after_accept_branches avg s :
  let total := length (interview_questions s) in
  let early := ((seventy_five_percent_mark total <=? Z.of_nat (q_index s))%Z
                && Qlt_bool 0 avg && Qlt_bool avg 3.0)%bool in
  (early = true /\
   after_accept total avg s
   = (append_message assistant early_stop_response (set_stage interview_finished s),
      StRerun))
  \/ (early = false /\ q_index s < total /\
      exists next, interview_questions s !! q_index s = Some next /\
        after_accept total avg s
        = (append_message assistant (next_question_response (question next)) s,
           ScriptEnd))
  \/ (early = false /\ total <= q_index s /\
      after_accept total avg s
      = (append_message assistant final_question_response
           (set_stage interview_finished s), StRerun)).
Proof.
  cbv zeta. unfold after_accept.
  destruct (_ && _ && _)%bool; [by left|right].
  destruct (Nat.ltb_spec (q_index s) (length (interview_questions s))) as [Hlt|Hge].
  - left. destruct (lookup_lt_is_Some_2 _ _ Hlt) as [x Hx]. rewrite Hx. eauto.
  - right. done.
Qed.

Lemma early_stop_is_not_hint h : early_stop_response <> hint_response h.
Proof. unfold hint_response, early_stop_response. simpl. discriminate. Qed.

Lemma next_question_is_not_hint q h : next_question_response q <> hint_response h.
Proof. unfold hint_response, next_question_response. simpl. discriminate. Qed.

Lemma final_question_is_not_hint h : final_question_response <> hint_response h.
Proof. unfold hint_response, final_question_response. simpl. discriminate. Qed.

(** X1. An answer scored 3 or more to the open question is recorded at once,
    whether or not a hint had been given before: the results grow by the
    question text, the answer and its evaluation, the index advances by one,
    the retry flag is cleared, and the reply of the assistant is not a hint. *)
Theorem good_answer_is_recorded (w : World) (bank : list Question) (s : SessionState)
    (q : Question) (prompt : string) :
  stage s = interviewing ->
  interview_questions s !! q_index s = Some q ->
  prompt <> "" ->
  (3 <= score (evaluation_of w q prompt))%Z ->
  let o := script w bank (Some s) (Some prompt) in
  q_index (state o) = q_index s + 1
  /\ results (state o)
     = results s ++ [mkTurn (question q) prompt (evaluation_of w q prompt)]
  /\ retry_attempt (state o) = false
  /\ exit o <> IndexError
  /\ exists reply,
      messages (state o)
      = messages s ++ [mkMessage user prompt; mkMessage assistant reply]
      /\ forall h, reply <> hint_response h.
Proof.
  intros Hst Hq Hp Hscore o. subst o.
  rewrite (script_accept _ _ _ _ q) by auto. cbv zeta. cbn [state exit].
  set (recorded := accept_answer q prompt (evaluation_of w q prompt)
                     (append_message user prompt s)).
  pose proof (after_accept_index (length (interview_questions s))
                (average_score (results s)) recorded) as (Hi & Hr & Hre & _).
  pose proof (after_accept_no_error (average_score (results s)) recorded) as Hne.
  rewrite Hi, Hr, Hre. split_and!; try done.
  pose proof (after_accept_branches (average_score (results s)) recorded) as Hb.
  cbv zeta in Hb.
  change (length (interview_questions recorded)) with (length (interview_questions s)) in Hb.
  destruct Hb as [(_ & ->)|[(_ & _ & next & _ & ->)|(_ & _ & ->)]]; cbn [fst];
    eexists; (split; [cbn; by rewrite <- app_assoc|]); intros h.
  - apply early_stop_is_not_hint.
  - apply next_question_is_not_hint.
  - apply final_question_is_not_hint.
Qed.

Lemma good_answer_is_recorded_witness :
  let o := script (scoring 7) bank3 (Some started3) (Some "it looks values up") in
  (stage started3 = interviewing
   /\ (3 <= score (evaluation_of (scoring 7)
                     (mkQuestion "What does VLOOKUP do?"
                        (Some "Mentions lookup value and column index.")
                        (Some "Think of looking up a value in the first column of a range."))
                     "it looks values up"))%Z)
  /\ q_index (state o) = q_index started3 + 1
  /\ retry_attempt (state o) = false.
Proof.
  cbv zeta.
  pose proof (good_answer_is_recorded (scoring 7) bank3 started3
                (mkQuestion "What does VLOOKUP do?"
                   (Some "Mentions lookup value and column index.")
                   (Some "Think of looking up a value in the first column of a range."))
                "it looks values up"
                eq_refl ltac:(vm_compute; reflexivity) ltac:(discriminate)
                ltac:(vm_compute; discriminate)) as H.
  cbv zeta in H. destruct H as (H1 & _ & H2 & _).
  split; [split; [reflexivity|vm_compute; discriminate]|]. split; [exact H1|exact H2].
Defined.

(** X2. Once an answer is recorded the session is finished exactly when the
    early-stop test of line 203 holds or the new index has reached the number
    of questions, and the script then asks for a rerun; otherwise the session
    stays in the interviewing stage and the reply is the question at the new
    index. *)
Theorem continuation_after_record (w : World) (bank : list Question) (s : SessionState)
    (q : Question) (prompt : string) :
  stage s = interviewing ->
  interview_questions s !! q_index s = Some q ->
  prompt <> "" ->
  (3 <= score (evaluation_of w q prompt))%Z \/ retry_attempt s = true ->
  let o := script w bank (Some s) (Some prompt) in
  let total := length (interview_questions s) in
  let early := (seventy_five_percent_mark total <= Z.of_nat (q_index s + 1))%Z
               /\ (0 < average_score (results s))%Q
               /\ (average_score (results s) < 3.0)%Q in
  (stage (state o) = interview_finished <-> early \/ q_index s + 1 = total)
  /\ (stage (state o) = interview_finished -> exit o = StRerun)
  /\ (stage (state o) <> interview_finished ->
      stage (state o) = interviewing
      /\ exit o = ScriptEnd
      /\ exists next,
          interview_questions s !! (q_index s + 1) = Some next
          /\ closing_message (state o)
             = Some (mkMessage assistant (next_question_response (question next))))
  /\ (~ early -> q_index s + 1 = total ->
      closing_message (state o) = Some (mkMessage assistant final_question_response)).
Proof.
  intros Hst Hq Hp Hacc o total early. subst o.
  pose proof (lookup_lt_Some _ _ _ Hq) as Hlt. fold total in Hlt.
  rewrite (script_accept _ _ _ _ q) by auto. cbv zeta. cbn [state exit].
  set (recorded := accept_answer q prompt (evaluation_of w q prompt)
                     (append_message user prompt s)).
  pose proof (after_accept_branches (average_score (results s)) recorded) as Hb.
  cbv zeta in Hb.
  change (length (interview_questions recorded)) with total in *.
  change (q_index recorded) with (q_index s + 1) in *.
  change (stage recorded) with (stage s) in *.
  fold total.
  pose proof (early_stop_condition total (average_score (results s)) (q_index s + 1))
    as Hcond. fold early in Hcond.
  destruct Hb as [(He & ->)|[(He & Hlt' & next & Hnext & ->)|(He & Hge & ->)]];
    cbn [fst snd].
  - apply Hcond in He.
    split_and!; try done. split; [by left|done].
  - assert (Hn : ~ early) by (rewrite <- Hcond; congruence).
    cbn [stage append_message]. change (stage recorded) with (stage s). rewrite Hst.
    split_and!; try done.
    + split; [done|]. intros [?|?]; [done|lia].
    + intros _. split_and!; try done. exists next. split; [done|].
      by rewrite closing_message_append.
    + lia.
  - assert (Hn : ~ early) by (rewrite <- Hcond; congruence).
    split_and!; try done.
    + split; [intros _; right; lia|done].
    + intros _ _. by rewrite closing_message_append.
Qed.

Lemma continuation_after_record_witness :
  let o := script (scoring 4) bank3 (Some started3) (Some "it looks values up") in
  (stage started3 = interviewing /\ q_index started3 + 1 <> length (interview_questions started3))
  /\ stage (state o) = interviewing
  /\ exit o = ScriptEnd.
Proof.
  cbv zeta.
  pose proof (continuation_after_record (scoring 4) bank3 started3
                (mkQuestion "What does VLOOKUP do?"
                   (Some "Mentions lookup value and column index.")
                   (Some "Think of looking up a value in the first column of a range."))
                "it looks values up"
                eq_refl ltac:(vm_compute; reflexivity) ltac:(discriminate)
                ltac:(left; vm_compute; discriminate)) as H.
  cbv zeta in H. destruct H as (_ & _ & H & _).
  split; [split; [reflexivity|vm_compute; lia]|].
  assert (Hns : stage (state (script (scoring 4) bank3 (Some started3)
                                (Some "it looks values up"))) <> interview_finished)
    by (vm_compute; discriminate).
  destruct (H Hns) as (H1 & H2 & _). split; [exact H1|exact H2].
Defined.

(** ** The early stop as the script decides it *)

(** X3. When an answer is recorded, the script closes with the early-stop
    message exactly when the new index has reached ceil(0.75 * number of
    questions) and the average of the results that were recorded before this
    answer is strictly between 0 and 3.  So the first recorded answer of a
    session never stops the interview early, nor does any answer before the
    threshold; and when the message is shown the session is finished. *)
Theorem early_stop_decision (w : World) (bank : list Question) (s : SessionState)
    (q : Question) (prompt : string) :
  stage s = interviewing ->
  interview_questions s !! q_index s = Some q ->
  prompt <> "" ->
  (3 <= score (evaluation_of w q prompt))%Z \/ retry_attempt s = true ->
  let o := script w bank (Some s) (Some prompt) in
  let total := length (interview_questions s) in
  let stopped := closing_message (state o)
                 = Some (mkMessage assistant early_stop_response) in
  (stopped <->
   (seventy_five_percent_mark total <= Z.of_nat (q_index s + 1))%Z
   /\ (0 < average_score (results s))%Q
   /\ (average_score (results s) < 3.0)%Q)
  /\ (results s = [] -> ~ stopped)
  /\ ((Z.of_nat (q_index s + 1) < seventy_five_percent_mark total)%Z -> ~ stopped)
  /\ (stopped -> stage (state o) = interview_finished /\ exit o = StRerun).
Proof.
  intros Hst Hq Hp Hacc o total stopped.
  pose proof (script_early_stop w bank s prompt q Hst Hp Hq Hacc) as Hiff.
  fold o total stopped in Hiff.
  split; [exact Hiff|]. split_and!.
  - intros Hnil Hstop. apply Hiff in Hstop as (_ & Hpos & _).
    rewrite Hnil in Hpos. by apply Qlt_irrefl in Hpos.
  - intros Hbelow Hstop. apply Hiff in Hstop as (Hmark & _). lia.
  - unfold stopped, o. rewrite (script_accept _ _ _ _ q) by auto.
    cbv zeta. cbn [state exit].
    match goal with |- context [after_accept ?t ?a ?x] =>
      pose proof (after_accept_branches a x) as Hb end.
    cbv zeta in Hb. cbn [accept_answer append_message interview_questions] in Hb.
    cbn [accept_answer append_message interview_questions].
    destruct Hb as [(_ & ->)|[(_ & _ & next & _ & ->)|(_ & _ & ->)]];
      cbn [fst snd]; rewrite closing_message_append; intros Hstop; [done|..];
      apply (inj Some), (f_equal content) in Hstop; cbn [content] in Hstop.
    + by apply next_question_is_not_early_stop in Hstop.
    + by apply final_question_is_not_early_stop in Hstop.
Qed.

Lemma early_stop_decision_witness :
  let o := script (scoring 5) bank3 (Some two_twos) (Some "third answer") in
  (stage two_twos = interviewing /\ retry_attempt two_twos = false
   /\ (average_score (results two_twos) == 2)%Q)
  /\ closing_message (state o) = Some (mkMessage assistant early_stop_response)
  /\ stage (state o) = interview_finished.
Proof.
  cbv zeta.
  pose proof (early_stop_decision (scoring 5) bank3 two_twos
                (mkQuestion "How do absolute references differ from relative ones?"
                   (Some "Mentions the dollar sign.") None)
                "third answer"
                ltac:(vm_compute; reflexivity) ltac:(vm_compute; reflexivity)
                ltac:(discriminate) ltac:(left; vm_compute; discriminate)) as H.
  cbv zeta in H. destruct H as (H1 & _ & _ & H2).
  split; [split_and!; vm_compute; reflexivity|].
  assert (Hstop : closing_message (state (script (scoring 5) bank3 (Some two_twos)
                                            (Some "third answer")))
                  = Some (mkMessage assistant early_stop_response)).
  { apply H1. vm_compute. split_and!; try reflexivity. discriminate. }
  split; [exact Hstop|]. exact (proj1 (H2 Hstop)).
Defined.

(** X4. The threshold ceil(0.75 * n) of line 202 is (3n + 3) div 4: it is at
    least 1 for a non-empty interview, never more than n, equal to n up to
    three questions and smaller than n from four questions on. *)
Theorem threshold_closed_form (n : nat) :
  seventy_five_percent_mark n = ((3 * Z.of_nat n + 3) / 4)%Z
  /\ (seventy_five_percent_mark n <= Z.of_nat n)%Z
  /\ (1 <= n -> (1 <= seventy_five_percent_mark n)%Z)
  /\ (n <= 3 -> seventy_five_percent_mark n = Z.of_nat n)
  /\ (4 <= n -> (seventy_five_percent_mark n < Z.of_nat n)%Z).
Proof.
  assert (Hform : seventy_five_percent_mark n = ((3 * Z.of_nat n + 3) / 4)%Z).
  { unfold seventy_five_percent_mark, Qceiling, Qfloor, Qopp, Qmult, inject_Z.
    cbn [Qnum Qden]. change (Z.pos (1 * 100)) with 100%Z.
    Z.to_euclidean_division_equations. lia. }
  rewrite Hform. split; [done|].
  split_and!; intros; Z.to_euclidean_division_equations; lia.
Qed.

(** ** All the ways through the script *)

(** Every execution of the script on an existing session takes one of eight
    ways; [p] is the submitted text. *)
Lemma script_cases w bank s input :
  let o := script w bank (Some s) input in
  (stage s = interview_finished
   /\ state o = match report s with
                | None => set_report (snd (generate_final_report w (results s))) s
                | Some _ => s
                end
   /\ exit o = StStop)
  \/ (stage s <> interview_finished /\ (input = None \/ input = Some "")
      /\ o = mkOutcome s [] ScriptEnd)
  \/ (exists p, input = Some p /\ p <> "" /\
      ((stage s = welcome /\ contains "start" (lower p) = false
        /\ o = mkOutcome (append_message user p s) [] ScriptEnd)
       \/ (stage s = welcome /\ contains "start" (lower p) = true
           /\ exists first, interview_questions s !! 0 = Some first
              /\ o = mkOutcome (append_message assistant (question first)
                                  (set_stage interviewing (append_message user p s)))
                               [] ScriptEnd)
       \/ (stage s = welcome /\ contains "start" (lower p) = true
           /\ interview_questions s !! 0 = None
           /\ o = mkOutcome (set_stage interviewing (append_message user p s))
                            [] IndexError)
       \/ (stage s = interviewing /\ interview_questions s !! q_index s = None
           /\ o = mkOutcome (append_message user p s) [] IndexError)
       \/ (exists q, stage s = interviewing
           /\ interview_questions s !! q_index s = Some q
           /\ (score (evaluation_of w q p) < 3)%Z /\ retry_attempt s = false
           /\ o = mkOutcome
                    (mkSession interviewing (q_index s) (results s) true
                       (interview_questions s)
                       (messages s ++ [mkMessage user p;
                          mkMessage assistant
                            (hint_response (default default_hint (hint q)))])
                       (report s))
                    (fst (evaluate_answer w (question q) p (default "" (rubric q))))
                    ScriptEnd)
       \/ (exists q, stage s = interviewing
           /\ interview_questions s !! q_index s = Some q
           /\ ((3 <= score (evaluation_of w q p))%Z \/ retry_attempt s = true)
           /\ o = let r := after_accept (length (interview_questions s))
                             (average_score (results s))
                             (accept_answer q p (evaluation_of w q p)
                                (append_message user p s)) in
                  mkOutcome (fst r)
                    (fst (evaluate_answer w (question q) p (default "" (rubric q))))
                    (snd r)))).
Proof.
  cbv zeta.
  destruct (decide (stage s = interview_finished)) as [Hf|Hf].
  { left. rewrite script_finished by done. by destruct (report s). }
  right. destruct input as [p|]; [|left; rewrite script_no_input by done; auto].
  destruct (decide (p = "")) as [->|Hp].
  { left. unfold script. rewrite decide_False by done. rewrite decide_True by done. auto. }
  right. exists p. split; [done|]. split; [done|].
  destruct (stage s) eqn:Hst; [| |done].
  - rewrite script_input by (done || congruence). unfold on_input.
    cbn [stage append_message interview_questions set_stage]. rewrite Hst.
    destruct (contains "start" (lower p)) eqn:Hc; [|by left].
    right. destruct (interview_questions s !! 0) as [first|] eqn:H0.
    + left. eauto 6.
    + right. left. done.
  - do 3 right.
    destruct (interview_questions s !! q_index s) as [q|] eqn:Hq.
    2:{ left. rewrite script_input by (done || congruence). unfold on_input.
        cbn [stage append_message interview_questions q_index]. by rewrite Hst, Hq. }
    right.
    destruct (Z.ltb_spec (score (evaluation_of w q p)) 3) as [Hlow|Hhigh].
    + destruct (retry_attempt s) eqn:Hretry.
      * right. exists q. split_and!; auto. by apply script_accept; auto.
      * left. exists q. split_and!; auto. by apply script_retry.
    + right. exists q. split_and!; auto. by apply script_accept; auto.
Qed.

(** ** What the interview keeps *)

Lemma seventy_five_percent_mark_div n :
  seventy_five_percent_mark n = ((3 * Z.of_nat n + 3) / 4)%Z.
Proof.
  unfold seventy_five_percent_mark, Qceiling, Qfloor, Qopp, Qmult, inject_Z.
  cbn [Qnum Qden]. change (Z.pos (1 * 100)) with 100%Z.
  Z.to_euclidean_division_equations. lia.
Qed.

Lemma new_session_interview_invariant w bank : interview_invariant (new_session w bank).
Proof.
  split; done.
Qed.

Lemma script_interview_invariant w bank s input :
  session_invariant bank s ->
  interview_invariant s ->
  interview_invariant (state (script w bank (Some s) input)).
Proof.
  intros [H1 H2 H3 H4 H5] [I1 I2 I3 I4].
  pose proof (script_cases w bank s input) as Hc. cbv zeta in Hc.
  destruct Hc as [(Hst & -> & _)|[(Hst & _ & ->)|(p & _ & Hp & Hc)]].
  - destruct (report s); split; done.
  - by split.
  - destruct Hc as [(Hst & _ & ->)|[(Hst & _ & first & H0 & ->)|[(Hst & _ & H0 & ->)
      |[(Hst & Hq & ->)|[(q & Hst & Hq & Hlow & Hretry & ->)
      |(q & Hst & Hq & Hacc & ->)]]]]]; cbn [state].
    + split; cbn; try done.
    + destruct (H3 Hst) as (Hi & Hr & Hre).
      apply lookup_lt_Some in H0.
      split; cbn; try done; intros; try congruence; try lia.
    + destruct (H3 Hst) as (Hi & Hr & Hre).
      apply lookup_ge_None in H0.
      split; cbn; try done; intros; try congruence.
      destruct (interview_questions s); [done|simpl in H0; lia].
    + split; cbn; try done.
    + apply lookup_lt_Some in Hq.
      split; cbn; try done; intros; try congruence.
    + pose proof (lookup_lt_Some _ _ _ Hq) as Hlt.
      cbv zeta. cbn [state].
      set (recorded := accept_answer q p (evaluation_of w q p) (append_message user p s)).
      assert (Hord : Forall2 (fun t e => turn_question t = question e)
                       (results recorded)
                       (take (q_index recorded) (interview_questions recorded))).
      { cbn. rewrite Nat.add_1_r, (take_S_r _ _ q) by done.
        apply Forall2_app; [done|]. by repeat constructor. }
      pose proof (after_accept_branches (average_score (results s)) recorded) as Hb.
      cbv zeta in Hb.
      change (length (interview_questions recorded)) with (length (interview_questions s)) in *.
      destruct Hb as [(He & ->)|[(He & Hlt' & next & Hnext & ->)|(He & Hge & ->)]];
        cbn [fst]; split; cbn; try done.
      * intros _. apply early_stop_condition in He as (He & _).
        cbn in He. split; [done|lia].
      * intros Hf. congruence.
      * intros _. cbn in Hge. rewrite seventy_five_percent_mark_div.
        split; [|lia]. Z.to_euclidean_division_equations. lia.
Qed.

Lemma reachable_interview_invariant bank s : reachable bank s -> interview_invariant s.
Proof.
  induction 1 as [w|w s input Hs IH].
  - apply new_session_interview_invariant.
  - apply script_interview_invariant; [by apply reachable_invariant|done].
Qed.

(** X5. The results are recorded in the order in which the questions are
    asked: in every reachable state the question texts of the results are
    the texts of the first [q_index] sampled questions, position by
    position. *)
Theorem results_follow_questions (bank : list Question) (s : SessionState) :
  reachable bank s ->
  turn_question <$> results s = question <$> take (q_index s) (interview_questions s)
  /\ forall i t, results s !! i = Some t ->
       exists q, interview_questions s !! i = Some q /\ turn_question t = question q.
Proof.
  intros Hs. pose proof (reachable_interview_invariant bank s Hs) as [Hord _ _ _].
  split.
  - induction Hord as [|t q ts qs Htq _ IH]; [done|]. cbn. by rewrite Htq, IH.
  - intros i t Ht.
    destruct (Forall2_lookup_l _ _ _ _ _ Hord Ht) as (q & Hq & Htq).
    exists q. split; [|done]. apply lookup_take_Some in Hq. tauto.
Qed.

Lemma results_follow_questions_witness :
  reachable bank5 finished5
  /\ turn_question <$> results finished5
     = ["What does VLOOKUP do?"; "What is a pivot table?";
        "How do absolute references differ from relative ones?"].
Proof.
  split; [apply reachable_end_state|].
  destruct (results_follow_questions bank5 finished5 (reachable_end_state _ _)) as [H _].
  rewrite H. vm_compute. reflexivity.
Defined.

(** X6. The retry flag is set only in the interviewing stage and only while
    the question at the current index exists; and as long as a session with
    at least one question is in the interviewing stage there is a current
    question, so that reading it at line 183 does not fail. *)
Theorem retry_belongs_to_open_question (bank : list Question) (s : SessionState) :
  reachable bank s ->
  (retry_attempt s = true ->
   stage s = interviewing /\ is_Some (interview_questions s !! q_index s))
  /\ (stage s = interviewing -> bank <> [] ->
      is_Some (interview_questions s !! q_index s)
      /\ forall w prompt, exit (script w bank (Some s) (Some prompt)) <> IndexError).
Proof.
  intros Hs.
  pose proof (reachable_interview_invariant bank s Hs) as [_ Hretry Hopen _].
  pose proof (reachable_invariant bank s Hs) as [_ _ _ _ Hlen].
  split.
  - intros Hr. destruct (Hretry Hr) as [Hst Hlt]. split; [done|].
    by apply lookup_lt_is_Some_2.
  - intros Hst Hbank.
    assert (Hne : interview_questions s <> []).
    { intros Hnil. rewrite Hnil in Hlen. destruct bank; [done|].
      unfold INTERVIEW_LENGTH in Hlen. simpl in Hlen. lia. }
    pose proof (Hopen Hst Hne) as Hlt.
    destruct (lookup_lt_is_Some_2 _ _ Hlt) as [q Hq].
    split; [by exists q|]. intros w prompt.
    pose proof (script_cases w bank s (Some prompt)) as Hc. cbv zeta in Hc.
    destruct Hc as [(_ & _ & ->)|[(_ & _ & ->)|(p & _ & _ & Hc)]]; [done..|].
    destruct Hc as [(Hw & _)|[(Hw & _)|[(Hw & _)
      |[(_ & Hq' & _)|[(q' & _ & _ & _ & _ & ->)
      |(q' & _ & _ & _ & ->)]]]]]; try congruence; [done|].
    cbv zeta. cbn [exit].
    exact (after_accept_no_error (average_score (results s))
             (accept_answer q' p (evaluation_of w q' p) (append_message user p s))).
Qed.

Lemma retry_belongs_to_open_question_witness :
  reachable bank3 two_threes_then_hint
  /\ retry_attempt two_threes_then_hint = true
  /\ stage two_threes_then_hint = interviewing.
Proof.
  split; [apply reachable_end_state|].
  destruct (retry_belongs_to_open_question bank3 two_threes_then_hint
              (reachable_end_state _ _)) as [H _].
  assert (Hr : retry_attempt two_threes_then_hint = true) by (vm_compute; reflexivity).
  split; [exact Hr|]. exact (proj1 (H Hr)).
Defined.

(** X7. With INTERVIEW_LENGTH = 3 a session never has more than three
    questions, so the early-stop threshold is the number of questions: a
    finished interview has recorded an answer to every sampled question, and
    the report is never asked for an empty transcript. *)
Theorem finished_means_all_answered (bank : list Question) (s : SessionState) :
  reachable bank s ->
  stage s = interview_finished ->
  q_index s = length (interview_questions s)
  /\ length (results s) = Nat.min INTERVIEW_LENGTH (length bank)
  /\ results s <> [].
Proof.
  intros Hs Hst.
  pose proof (reachable_interview_invariant bank s Hs) as [_ _ _ Hfin].
  pose proof (reachable_invariant bank s Hs) as [Hle Hres _ _ Hlen].
  destruct (Hfin Hst) as [Hmark Hpos].
  assert (Hq : q_index s = length (interview_questions s)).
  { rewrite seventy_five_percent_mark_div in Hmark.
    assert (length (interview_questions s) <= 3)
      by (rewrite Hlen; unfold INTERVIEW_LENGTH; lia).
    revert Hmark. Z.to_euclidean_division_equations. lia. }
  split; [done|]. split; [by rewrite Hres, Hq|].
  intros Hnil. rewrite Hnil in Hres. simpl in Hres. lia.
Qed.

Lemma finished_means_all_answered_witness :
  reachable bank5 finished5
  /\ stage finished5 = interview_finished
  /\ q_index finished5 = length (interview_questions finished5).
Proof.
  split; [apply reachable_end_state|]. split; [vm_compute; reflexivity|].
  exact (proj1 (finished_means_all_answered bank5 finished5 (reachable_end_state _ _)
                  ltac:(vm_compute; reflexivity))).
Defined.

(** X8. The stage only moves forward, one step at a time: no execution of
    the script takes a session back to an earlier stage, and none takes it
    from the welcome stage to the finished stage. *)
Theorem stage_moves_forward (w : World) (bank : list Question) (s : SessionState)
    (input : option string) :
  let s' := state (script w bank (Some s) input) in
  stage_rank (stage s) <= stage_rank (stage s') <= stage_rank (stage s) + 1.
Proof.
  cbv zeta.
  pose proof (script_cases w bank s input) as Hc. cbv zeta in Hc.
  destruct Hc as [(Hst & -> & _)|[(Hst & _ & ->)|(p & _ & Hp & Hc)]].
  - destruct (report s); cbn; lia.
  - cbn. lia.
  - destruct Hc as [(Hst & _ & ->)|[(Hst & _ & first & H0 & ->)|[(Hst & _ & H0 & ->)
      |[(Hst & Hq & ->)|[(q & Hst & Hq & Hlow & Hretry & ->)
      |(q & Hst & Hq & Hacc & ->)]]]]]; cbn [state]; try (cbn; rewrite Hst; cbn; lia).
    cbv zeta. cbn [state].
    match goal with |- context [after_accept ?t ?a ?x] =>
      destruct (after_accept_cases t a x) as [[m ->]|[[m ->]| ->]] end;
      cbn; rewrite Hst; cbn; lia.
Qed.

(** X9. The conversation log only grows.  It starts with the welcome message
    that announces the number of questions; an execution of the script adds
    nothing, or the submitted text, or the submitted text followed by one
    message of the assistant. *)
Theorem conversation_log_grows (w : World) (bank : list Question) (s : SessionState)
    (input : option string) :
  reachable bank s ->
  let s' := state (script w bank (Some s) input) in
  messages s !! 0
  = Some (mkMessage assistant (welcome_text (length (interview_questions s))))
  /\ exists added,
      messages s' = messages s ++ added
      /\ (added = []
          \/ exists p, input = Some p /\ p <> "" /\ stage s <> interview_finished
             /\ (added = [mkMessage user p]
                 \/ exists reply, added = [mkMessage user p; mkMessage assistant reply])).
Proof.
  intros Hs. cbv zeta. split.
  - clear w input. induction Hs as [w|w s input Hs IH]; [done|].
    rewrite script_questions_fixed.
    pose proof (script_cases w bank s input) as Hc. cbv zeta in Hc.
    destruct Hc as [(Hst & -> & _)|[(Hst & _ & ->)|(p & _ & Hp & Hc)]].
    + by destruct (report s).
    + done.
    + pose proof (lookup_lt_Some _ _ _ IH) as Hpos.
      destruct Hc as [(Hst & _ & ->)|[(Hst & _ & first & H0 & ->)|[(Hst & _ & H0 & ->)
        |[(Hst & Hq & ->)|[(q & Hst & Hq & Hlow & Hretry & ->)
        |(q & Hst & Hq & Hacc & ->)]]]]]; cbv zeta; cbn [state];
        try match goal with |- context [after_accept ?t ?a ?x] =>
          destruct (after_accept_cases t a x) as [[m ->]|[[m ->]| ->]] end;
        cbn; rewrite ?lookup_app_l by (rewrite ?length_app; lia); done.
  - pose proof (script_cases w bank s input) as Hc. cbv zeta in Hc.
    destruct Hc as [(Hst & -> & _)|[(Hst & _ & ->)|(p & Hin & Hp & Hc)]].
    + exists []. rewrite app_nil_r. split; [by destruct (report s)|by left].
    + exists []. rewrite app_nil_r. split; [done|by left].
    + assert (Hnf : stage s <> interview_finished).
      { destruct Hc as [(Hst & _)|[(Hst & _)|[(Hst & _)
          |[(Hst & _)|[(q & Hst & _)|(q & Hst & _)]]]]]; congruence. }
      destruct Hc as [(Hst & _ & ->)|[(Hst & _ & first & H0 & ->)|[(Hst & _ & H0 & ->)
        |[(Hst & Hq & ->)|[(q & Hst & Hq & Hlow & Hretry & ->)
        |(q & Hst & Hq & Hacc & ->)]]]]]; cbn [state].
      * exists [mkMessage user p]. split; [done|]. right. exists p. eauto.
      * eexists [mkMessage user p; mkMessage assistant _].
        split; [cbn; by rewrite <- app_assoc|]. right. exists p. eauto 8.
      * exists [mkMessage user p]. split; [done|]. right. exists p. eauto.
      * exists [mkMessage user p]. split; [done|]. right. exists p. eauto.
      * eexists [mkMessage user p; mkMessage assistant _].
        split; [done|]. right. exists p. eauto 8.
      * cbv zeta. cbn [state].
        match goal with |- context [after_accept ?t ?a ?x] =>
          destruct (after_accept_cases t a x) as [[m ->]|[[m ->]| ->]] end; cbn [fst].
        -- eexists [mkMessage user p; mkMessage assistant _].
           split; [cbn; by rewrite <- app_assoc|]. right. exists p. eauto 8.
        -- eexists [mkMessage user p; mkMessage assistant _].
           split; [cbn; by rewrite <- app_assoc|]. right. exists p. eauto 8.
        -- exists [mkMessage user p]. split; [done|]. right. exists p. eauto.
Qed.

Lemma conversation_log_grows_witness :
  reachable bank3 started3
  /\ length (messages (state (script (scoring 4) bank3 (Some started3)
                                (Some "it looks values up"))))
     = length (messages started3) + 2.
Proof.
  split; [apply reachable_end_state|].
  destruct (conversation_log_grows (scoring 4) bank3 started3 (Some "it looks values up")
              (reachable_end_state _ _)) as (_ & added & Hadd & _).
  vm_compute. reflexivity.
Defined.

(** ** The interview comes to an end *)







(** ** Calls to the models *)

Lemma evaluate_answer_prompts w q a r :
  evaluator_prompts (fst (evaluate_answer w q a r)) = [EVALUATION_PROMPT q a r].
Proof. unfold evaluate_answer. by destruct (eval_model w _). Qed.

Lemma generate_final_report_no_evaluation w rs :
  evaluator_prompts (fst (generate_final_report w rs)) = [].
Proof. unfold generate_final_report. by destruct (report_model w _). Qed.

(** X11. The evaluator model is called only for a text submitted in the
    interviewing stage while the current question exists, and then exactly
    once, with the prompt made of the text of the current question, the
    submitted text and the rubric of the question (the empty string when the
    question has none); outside the finished stage the report model is never
    called. *)
Theorem evaluator_called_once_per_answer (w : World) (bank : list Question)
    (s : SessionState) (input : option string) :
  let o := script w bank (Some s) input in
  evaluator_prompts (trace o)
  = match stage s, input with
    | interviewing, Some p =>
        if decide (p = "") then []
        else match interview_questions s !! q_index s with
             | Some q => [EVALUATION_PROMPT (question q) p (default "" (rubric q))]
             | None => []
             end
    | _, _ => []
    end
  /\ (stage s <> interview_finished -> report_prompts (trace o) = []).
Proof.
  cbv zeta. split; [|intros Hf; by apply script_unfinished].
  pose proof (script_cases w bank s input) as Hc. cbv zeta in Hc.
  destruct (decide (stage s = interview_finished)) as [Hf|Hf].
  { rewrite script_finished by done. rewrite Hf.
    destruct (report s); cbn [trace]; [done|]. apply generate_final_report_no_evaluation. }
  destruct Hc as [(Hst & _)|[(Hst & Hin & ->)|(p & -> & Hp & Hc)]]; [done| |].
  - destruct Hin as [Hin|Hin]; subst input; by destruct (stage s).
  - rewrite (decide_False (P := p = "")) by done.
    destruct Hc as [(Hst & _ & ->)|[(Hst & _ & first & H0 & ->)|[(Hst & _ & H0 & ->)
      |[(Hst & Hq & ->)|[(q & Hst & Hq & Hlow & Hretry & ->)
      |(q & Hst & Hq & Hacc & ->)]]]]]; rewrite Hst; cbv zeta; cbn [trace];
      rewrite ?Hq; try done; apply evaluate_answer_prompts.
Qed.

(** X12. When the call to the report model fails, the fixed apology is
    stored as the report and an error banner is shown; the call is not
    repeated, later executions of the script keep the apology even if the
    model would answer by then. *)
Theorem failed_report_is_kept (w : World) (bank : list Question) (s : SessionState)
    (input : option string) (detail : string) (runs : list (World * option string)) :
  stage s = interview_finished ->
  report s = None ->
  report_model w (FINAL_REPORT_PROMPT (transcript_from 0 (results s))) = Raises detail ->
  let o := script w bank (Some s) input in
  report (state o) = Some "Could not generate the final report due to an error."
  /\ trace o
     = [ReportCall (FINAL_REPORT_PROMPT (transcript_from 0 (results s)));
        StError ("An error occurred while generating the report: " +:+ detail)]
  /\ exit o = StStop
  /\ rerender bank (state o) runs = (state o, []).
Proof.
  intros Hst Hrep Hfail o. subst o.
  rewrite script_finished by done. rewrite Hrep.
  unfold generate_final_report. rewrite Hfail. cbn [fst snd state trace exit].
  split_and!; try done.
  apply rerender_finished_cached; [done|by eexists].
Qed.

Lemma failed_report_is_kept_witness :
  let s := state (script (scoring 1) bank3 (Some two_threes_then_hint)
                    (Some "third answer again")) in
  (stage s = interview_finished /\ report s = None)
  /\ rerender bank3 (state (script failing bank3 (Some s) None))
       [(scoring 5, None); (scoring 5, Some "please try again")]
     = (state (script failing bank3 (Some s) None), []).
Proof.
  cbv zeta. split; [split; vm_compute; reflexivity|].
  pose proof (failed_report_is_kept failing bank3
                (state (script (scoring 1) bank3 (Some two_threes_then_hint)
                          (Some "third answer again")))
                None "503 unavailable"
                [(scoring 5, None); (scoring 5, Some "please try again")]
                ltac:(vm_compute; reflexivity) ltac:(vm_compute; reflexivity)
                eq_refl) as H.
  cbv zeta in H. exact (proj2 (proj2 (proj2 H))).
Defined.

(** ** An empty question bank *)

(** X13. With an empty question bank the session has no questions and never
    gets anywhere: nothing is ever recorded, the finished stage is never
    reached, and every text that contains "start", and every text submitted
    after it, ends the script with an IndexError before any model is
    called. *)
Theorem empty_bank_is_stuck (s : SessionState) (w : World) (prompt : string) :
  reachable [] s ->
  let o := script w [] (Some s) (Some prompt) in
  interview_questions s = []
  /\ results s = []
  /\ stage s <> interview_finished
  /\ (prompt <> "" ->
      stage s = interviewing \/ contains "start" (lower prompt) = true ->
      exit o = IndexError /\ trace o = [] /\ stage (state o) = interviewing).
Proof.
  intros Hs. cbv zeta.
  pose proof (reachable_invariant [] s Hs) as [Hle Hres _ _ Hlen].
  pose proof (reachable_interview_invariant [] s Hs) as [_ _ _ Hfin].
  assert (Hq : interview_questions s = []).
  { apply nil_length_inv. rewrite Hlen. by rewrite Nat.min_0_r. }
  rewrite Hq in *. simpl in Hle.
  assert (Hr : results s = []) by (apply nil_length_inv; lia).
  assert (Hnf : stage s <> interview_finished).
  { intros Hf. destruct (Hfin Hf). lia. }
  split_and!; try done.
  intros Hp Hstart.
  rewrite script_input by done. unfold on_input.
  cbn [stage append_message interview_questions q_index set_stage]. rewrite Hq.
  destruct (stage s) eqn:Hst; [| |done].
  - destruct Hstart as [?| ->]; [done|]. done.
  - done.
Qed.

Lemma empty_bank_is_stuck_witness :
  reachable [] started_empty
  /\ stage started_empty = interviewing
  /\ exit (script (scoring 5) [] (Some started_empty) (Some "hello?")) = IndexError.
Proof.
  split; [apply reachable_end_state|]. split; [vm_compute; reflexivity|].
  destruct (empty_bank_is_stuck started_empty (scoring 5) "hello?"
              (reachable_end_state _ _)) as (_ & _ & _ & H).
  apply H; [discriminate|]. left. vm_compute. reflexivity.
Defined.

(** ** Strings *)

Lemma append_cons (x : ascii) (a b : string) : String x a +:+ b = String x (a +:+ b).
Proof. reflexivity. Qed.

Lemma append_assoc (a b c : string) : (a +:+ b) +:+ c = a +:+ (b +:+ c).
Proof. induction a as [|x a IH]; [done|]. by rewrite !append_cons, IH. Qed.

Lemma append_nil_r (a : string) : a +:+ "" = a.
Proof. induction a as [|x a IH]; [done|]. by rewrite append_cons, IH. Qed.

Lemma prefix_append (n h : string) :
  String.prefix n h = true <-> exists rest, h = n +:+ rest.
Proof.
  revert h. induction n as [|a n IH]; intros h.
  - split; [intros _; by exists h|by destruct h].
  - destruct h as [|b h]; cbn.
    + split; [done|by intros [rest ?]].
    + destruct (ascii_dec a b) as [->|Hne].
      * rewrite IH. split; intros [rest Hr]; exists rest; [by rewrite Hr|by injection Hr].
      * split; [done|]. intros [rest Hr]. injection Hr as Hb _. by subst.
Qed.

(** [needle in hay] holds exactly when [hay] is some text, then [needle],
    then some text. *)
Lemma contains_append (n h : string) :
  contains n h = true <-> exists pre post, h = pre +:+ n +:+ post.
Proof.
  induction h as [|c h IH]; cbn [contains]; rewrite orb_true_iff, prefix_append.
  - split.
    + intros [[rest Hr]|?]; [|done]. by exists "", rest.
    + intros (pre & post & Hr). left. destruct pre; [by exists post|done].
  - rewrite IH. split.
    + intros [[rest Hr]|(pre & post & Hr)]; [by exists "", rest|].
      exists (String c pre), post. by rewrite Hr.
    + intros (pre & post & Hr). destruct pre as [|c' pre].
      * left. by exists post.
      * right. injection Hr as _ Hr. by exists pre, post.
Qed.




(** ** The transcript of the final report *)

Lemma transcript_from_cons i res rest :
  transcript_from i (res :: rest)
  = transcript_entry i res +:+ transcript_from (S i) rest.
Proof.
  cbn [transcript_from]. unfold transcript_entry.
  by rewrite !append_assoc.
Qed.

Lemma transcript_from_app i rs1 rs2 :
  transcript_from i (rs1 ++ rs2)
  = transcript_from i rs1 +:+ transcript_from (i + length rs1) rs2.
Proof.
  revert i. induction rs1 as [|r rs1 IH]; intros i.
  - cbn [app length transcript_from]. by rewrite Nat.add_0_r.
  - rewrite <- app_comm_cons, !transcript_from_cons, IH, append_assoc.
    cbn [length]. by rewrite Nat.add_succ_r.
Qed.

Lemma contains_append_left (n p h : string) :
  contains n h = true -> contains n (p +:+ h) = true.
Proof.
  rewrite !contains_append. intros (pre & post & ->).
  exists (p +:+ pre), post. by rewrite append_assoc.
Qed.

Lemma contains_append_right (n h t : string) :
  contains n h = true -> contains n (h +:+ t) = true.
Proof.
  rewrite !contains_append. intros (pre & post & ->).
  exists pre, (post +:+ t). by rewrite !append_assoc.
Qed.

(** What is in the transcript is in the prompt. *)
Lemma contains_final_report_prompt (e transcript : string) :
  contains e transcript = true ->
  contains e (FINAL_REPORT_PROMPT transcript) = true.
Proof.
  intros He. unfold FINAL_REPORT_PROMPT.
  repeat match goal with
         | |- contains _ (_ +:+ (_ +:+ _)) = true => apply contains_append_left
         end.
  by apply contains_append_right.
Qed.

(** X15. The transcript sent to the report model is the concatenation of
    one entry per result, in the order of the results and numbered from 1:
    appending results appends their entries with the numbering continued,
    and the entry of every recorded result, with its question, answer, score
    and justification, is part of the prompt. *)
Theorem transcript_in_order (rs1 rs2 : list TurnRecord) :
  transcript_from 0 (rs1 ++ rs2)
  = transcript_from 0 rs1 +:+ transcript_from (length rs1) rs2
  /\ (forall r, transcript_from 0 (rs1 ++ [r])
                = transcript_from 0 rs1 +:+ transcript_entry (length rs1) r)
  /\ forall k r,
       (rs1 ++ rs2) !! k = Some r ->
       contains (transcript_entry k r)
                (FINAL_REPORT_PROMPT (transcript_from 0 (rs1 ++ rs2))) = true.
Proof.
  split_and!.
  - apply transcript_from_app.
  - intros r. rewrite transcript_from_app, transcript_from_cons.
    cbn [transcript_from]. by rewrite append_nil_r.
  - intros k r Hk. generalize dependent (rs1 ++ rs2). intros rs Hk.
    apply contains_final_report_prompt.
    rewrite <- (take_drop_middle rs k r Hk) at 1.
    rewrite transcript_from_app, transcript_from_cons.
    rewrite length_take_le by (apply lookup_lt_Some in Hk; lia).
    apply contains_append. eauto.
Qed.

(** ** The page header *)

Lemma length_positive_Qlt {A} (l : list A) :
  l <> [] -> (0 < inject_Z (Z.of_nat (length l)))%Q.
Proof.
  intros Hl. change 0%Q with (inject_Z 0). rewrite <- Zlt_Qlt.
  destruct l; [done|cbn [length]; lia].
Qed.

(** X16. The value that the script hands to the progress bar at the top of
    an execution lies between 0 and 1 in every reachable state, as
    [st.progress] requires; it is 0 for a session without questions and
    reaches 1 exactly when all the questions of a non-empty session are
    answered. *)
Theorem progress_within_bounds (bank : list Question) (s : SessionState) :
  reachable bank s ->
  (0 <= progress_percent s)%Q
  /\ (progress_percent s <= 1)%Q
  /\ (interview_questions s = [] -> progress_percent s = 0%Q)
  /\ ((progress_percent s == 1)%Q
      <-> interview_questions s <> [] /\ q_index s = length (interview_questions s)).
Proof.
  intros Hs. pose proof (reachable_invariant bank s Hs) as [Hle _ _ _ _].
  unfold progress_percent. cbv zeta.
  destruct (interview_questions s) as [|q qs] eqn:Hq.
  - cbn. split_and!; try done. split; [done|]. by intros [? _].
  - rewrite <- Hq in *.
    assert (Hne : interview_questions s <> []) by (rewrite Hq; done).
    assert (Hlen : 0 < length (interview_questions s))
      by (rewrite Hq; cbn [length]; lia).
    destruct (Nat.ltb_spec 0 (length (interview_questions s))) as [_|]; [|lia].
    pose proof (length_positive_Qlt _ Hne) as Hpos.
    split_and!.
    + apply Qle_shift_div_l; [done|]. rewrite Qmult_0_l.
      change 0%Q with (inject_Z 0). rewrite <- Zle_Qle. clear Hpos. lia.
    + apply Qle_shift_div_r; [done|]. rewrite Qmult_1_l. rewrite <- Zle_Qle.
      clear Hpos. lia.
    + intros Hnil. by rewrite Hnil in Hq.
    + split.
      * intros H1. split; [done|].
        apply (Qmult_inj_r _ _ (inject_Z (Z.of_nat (length (interview_questions s)))))
          in H1; [|by apply Qnot_eq_sym, Qlt_not_eq].
        rewrite Qmult_1_l in H1. unfold Qdiv in H1.
        rewrite <- Qmult_assoc, (Qmult_comm (/ _)), Qmult_inv_r, Qmult_1_r in H1
          by (by apply Qnot_eq_sym, Qlt_not_eq).
        unfold Qeq in H1. cbn [Qnum Qden inject_Z] in H1. clear Hpos. lia.
      * intros [_ ->]. unfold Qdiv. apply Qmult_inv_r.
        by apply Qnot_eq_sym, Qlt_not_eq.
Qed.

Lemma progress_within_bounds_witness :
  reachable bank5 finished5 /\ (progress_percent finished5 <= 1)%Q.
Proof.
  split; [apply reachable_end_state|].
  exact (proj1 (proj2 (progress_within_bounds bank5 finished5 (reachable_end_state _ _)))).
Defined.



